(** * Configuration loading of ibmcloud-volume-interface ([config/config.go])

    A shallow embedding of package [config]: the path resolution
    ([GetGoPath], [GetEtcPath], [GetDefaultConfPath], [GetConfPath],
    [GetConfPathDir]) and the loader ([ReadConfig], [ParseConfig]), which
    decodes a TOML file into a [Config] and then overlays the process
    environment on it.

    The process environment, the file system and the logger are explicit:
    an environment is a lookup function, a file system maps a path to the
    state of the file there, and what the loader writes (log lines) and
    opens (files) is returned as a trace of events. *)

From Stdlib Require Import String Ascii List ZArith Bool Arith Lia.
Import ListNotations.

Local Open Scope string_scope.
Local Open Scope list_scope.

(* ================================================================== *)
(** ** Strings: the pieces of Go's [strings] package the code calls *)

Module Strings.

(** [strings.ToUpper] on ASCII letters; every key and tag of this package
    is ASCII, other bytes are left as they are. *)
Definition upperChar (c : ascii) : ascii :=
  let n := nat_of_ascii c in
  if (97 <=? n)%nat && (n <=? 122)%nat then ascii_of_nat (n - 32) else c.

Fixpoint ToUpper (s : string) : string :=
  match s with
  | EmptyString => EmptyString
  | String c r => String (upperChar c) (ToUpper r)
  end.

(** [strings.Join(elems, sep)]. *)
Fixpoint Join (elems : list string) (sep : string) : string :=
  match elems with
  | [] => ""
  | [e] => e
  | e :: rest => e ++ sep ++ Join rest sep
  end.

(** [strings.EqualFold] on ASCII: equality up to the case of letters. *)
Definition EqualFold (a b : string) : bool :=
  String.eqb (ToUpper a) (ToUpper b).

End Strings.

(* ================================================================== *)
(** ** Paths: [path/filepath] with the Unix separator *)

Module Filepath.

Definition Separator : ascii := "/"%char.

Definition isSep (c : ascii) : bool := Ascii.eqb c Separator.
Definition isDot (c : ascii) : bool := Ascii.eqb c "."%char.

(** The output buffer of [Clean] is kept newest byte first, so that its
    write index [w] is [length buf] and [buf.index(w-1)] is the head. *)

(** The inner loop of the [..] case:
    [out.w--; for out.w > dotdot && out.index(out.w) != '/' { out.w-- }]. *)
Fixpoint backtrack (buf : list ascii) (dotdot : nat) : list ascii :=
  match buf with
  | [] => []
  | c :: buf' =>
      if (dotdot <? length buf')%nat && negb (isSep c)
      then backtrack buf' dotdot
      else buf'
  end.

(** Splits a path at its first separator: the bytes of the leading
    element and what follows ([for ; r < n && path[r] != '/'; r++]). *)
Fixpoint element (path : list ascii) : list ascii * list ascii :=
  match path with
  | [] => ([], [])
  | c :: r =>
      if isSep c then ([], path)
      else let '(e, rest) := element r in (c :: e, rest)
  end.

(** At the end of the path or at a separator. *)
Definition atBoundary (path : list ascii) : bool :=
  match path with
  | [] => true
  | c :: _ => isSep c
  end.

(** The main loop of [Clean], [for r < n { switch ... } ]; every turn
    consumes at least one byte, so [length path] turns are enough. *)
Fixpoint cleanLoop (fuel : nat) (rooted : bool) (path buf : list ascii)
         (dotdot : nat) : list ascii :=
  match fuel with
  | O => buf
  | S fuel' =>
      match path with
      | [] => buf
      | c :: r1 =>
          if isSep c then
            (* empty path element *)
            cleanLoop fuel' rooted r1 buf dotdot
          else if isDot c && atBoundary r1 then
            (* . element *)
            cleanLoop fuel' rooted r1 buf dotdot
          else if isDot c &&
                  match r1 with
                  | d :: r2 => isDot d && atBoundary r2
                  | [] => false
                  end then
            (* .. element: remove to last separator *)
            let r2 := tl r1 in
            if (dotdot <? length buf)%nat then
              cleanLoop fuel' rooted r2 (backtrack buf dotdot) dotdot
            else if negb rooted then
              let buf1 := if (0 <? length buf)%nat
                          then Separator :: buf else buf in
              let buf2 := "."%char :: "."%char :: buf1 in
              cleanLoop fuel' rooted r2 buf2 (length buf2)
            else
              cleanLoop fuel' rooted r2 buf dotdot
          else
            (* real path element: add a separator if needed, copy it *)
            let buf1 :=
              if (rooted && negb (length buf =? 1)%nat)
                 || (negb rooted && negb (length buf =? 0)%nat)
              then Separator :: buf else buf in
            let '(e, rest) := element path in
            cleanLoop fuel' rooted rest (rev e ++ buf1) dotdot
      end
  end.

(** [filepath.Clean]. *)
Definition Clean (path : string) : string :=
  match list_ascii_of_string path with
  | [] => "."
  | c :: r =>
      let n := length (c :: r) in
      let out :=
        if isSep c
        then cleanLoop n true r [Separator] 1
        else cleanLoop n false (c :: r) [] 0 in
      match out with
      | [] => "."
      | _ => string_of_list_ascii (rev out)
      end
  end.

(** [filepath.Join]: the elements from the first non-empty one on are
    joined with the separator and cleaned; empty when all are empty. *)
Fixpoint Join (elem : list string) : string :=
  match elem with
  | [] => ""
  | e :: rest =>
      if String.eqb e "" then Join rest
      else Clean (Strings.Join elem (String Separator ""))
  end.

End Filepath.

(* ================================================================== *)
(** ** The process environment *)

(** [os.LookupEnv]: the value of a variable, when it is set. *)
Definition Env := string -> option string.

(** [os.Getenv]: an unset variable reads as the empty string. *)
Definition Getenv (env : Env) (key : string) : string :=
  match env key with
  | Some v => v
  | None => ""
  end.

Definition emptyEnv : Env := fun _ => None.

(** [os.Setenv] on the model. *)
Definition setenv (key value : string) (env : Env) : Env :=
  fun k => if String.eqb k key then Some value else env k.

(* ================================================================== *)
(** ** Path resolution *)

Definition getEnv (env : Env) (key : string) : string :=
  Getenv env (Strings.ToUpper key).

(** GetGoPath inspects the environment for the GOPATH variable *)
Definition GetGoPath (env : Env) : string :=
  let goPath := getEnv env "GOPATH" in
  if negb (String.eqb goPath "") then goPath else "".

(** GetEtcPath returns the path to the etc directory *)
Definition GetEtcPath (env : Env) : string :=
  let goPath := GetGoPath env in
  let srcPath :=
    Filepath.Join ["src"; "github.com"; "IBM"; "ibmcloud-volume-interface"] in
  Filepath.Join [goPath; srcPath; "etc"].

(** GetDefaultConfPath get default config file path *)
Definition GetDefaultConfPath (env : Env) : string :=
  Filepath.Join [GetEtcPath env; "libconfig.toml"].

(** GetConfPath get configuration file path *)
Definition GetConfPath (env : Env) : string :=
  let confPath := getEnv env "SECRET_CONFIG_PATH" in
  if negb (String.eqb confPath "")
  then Filepath.Join [confPath; "libconfig.toml"]
  else GetDefaultConfPath env.

(** GetConfPathDir get configuration dir path *)
Definition GetConfPathDir (env : Env) : string :=
  let confPath := getEnv env "SECRET_CONFIG_PATH" in
  if negb (String.eqb confPath "") then confPath else GetEtcPath env.

(* ================================================================== *)
(** ** The configuration schema

    Both libraries the loader calls, BurntSushi/toml and
    kelseyhightower/envconfig, walk the configuration through Go's
    [reflect] package: a struct value is its sequence of fields, and each
    field is described by its name, its kind and its tags.  The embedding
    keeps that view: a struct type is the list of its fields as declared,
    a struct value the list of its field values in the same order. *)

(** The kinds of the leaf fields ([reflect.Bool], [reflect.Int],
    [reflect.String]). *)
Inductive Kind := KBool | KInt | KString.

Inductive Value :=
| VBool (b : bool)
| VInt (n : Z)
| VString (s : string).

(** The zero value of a kind. *)
Definition zeroValue (k : Kind) : Value :=
  match k with
  | KBool => VBool false
  | KInt => VInt 0
  | KString => VString ""
  end.

(** [reflect.StructField]: name, kind, and the [toml] and [envconfig]
    tags as written in the source (empty when the field has none). *)
Record StructField := mkField {
  Name : string;
  FieldKind : Kind;
  TagToml : string;
  TagEnvconfig : string
}.

Definition StructType := list StructField.

(** ServerConfig configuration options for the provider server itself *)
Definition ServerConfig : StructType := [
  mkField "DebugTrace" KBool "debug_trace" "DEBUG_TRACE"
].

Definition BluemixConfig : StructType := [
  mkField "IamURL" KString "iam_url" "";
  mkField "IamClientID" KString "iam_client_id" "";
  mkField "IamClientSecret" KString "iam_client_secret" "";
  mkField "IamAPIKey" KString "iam_api_key" "";
  mkField "RefreshToken" KString "refresh_token" "";
  mkField "APIEndpointURL" KString "containers_api_route" "";
  mkField "PrivateAPIRoute" KString "containers_api_route_private" "";
  mkField "Encryption" KBool "encryption" "";
  mkField "CSRFToken" KString "containers_api_csrf_token" ""
].

Definition SoftlayerConfig : StructType := [
  mkField "SoftlayerBlockEnabled" KBool
          "softlayer_block_enabled" "SOFTLAYER_BLOCK_ENABLED";
  mkField "SoftlayerBlockProviderName" KString
          "softlayer_block_provider_name" "SOFTLAYER_BLOCK_PROVIDER_NAME";
  mkField "SoftlayerFileEnabled" KBool
          "softlayer_file_enabled" "SOFTLAYER_FILE_ENABLED";
  mkField "SoftlayerFileProviderName" KString
          "softlayer_file_provider_name" "SOFTLAYER_FILE_PROVIDER_NAME";
  mkField "SoftlayerUsername" KString "softlayer_username" "";
  mkField "SoftlayerAPIKey" KString "softlayer_api_key" "";
  mkField "SoftlayerEndpointURL" KString "softlayer_endpoint_url" "";
  mkField "SoftlayerDataCenter" KString "softlayer_datacenter" "";
  mkField "SoftlayerTimeout" KString
          "softlayer_api_timeout" "SOFTLAYER_API_TIMEOUT";
  mkField "SoftlayerVolProvisionTimeout" KString
          "softlayer_vol_provision_timeout" "SOFTLAYER_VOL_PROVISION_TIMEOUT";
  mkField "SoftlayerRetryInterval" KString
          "softlayer_api_retry_interval" "SOFTLAYER_API_RETRY_INTERVAL";
  mkField "SoftlayerJWTKID" KString "softlayer_jwt_kid" "";
  mkField "SoftlayerJWTTTL" KInt "softlayer_jwt_ttl" "";
  mkField "SoftlayerJWTValidFrom" KInt "softlayer_jwt_valid" "";
  mkField "SoftlayerIMSEndpointURL" KString "softlayer_iam_endpoint_url" "";
  mkField "SoftlayerAPIDebug" KBool "" ""
].

(** VPCProviderConfig configures a specific instance of a VPC provider *)
Definition VPCProviderConfig : StructType := [
  mkField "Enabled" KBool "vpc_enabled" "VPC_ENABLED";
  mkField "IamClientID" KString "iam_client_id" "";
  mkField "IamClientSecret" KString "iam_client_secret" "";
  mkField "VPCTypeEnabled" KString "vpc_type_enabled" "VPC_TYPE_ENABLED";
  mkField "VPCBlockProviderType" KString "provider_type" "";
  mkField "VPCProviderType" KString "vpc_provider_type" "";
  mkField "EndpointURL" KString "gc_riaas_endpoint_url" "";
  mkField "PrivateEndpointURL" KString "gc_riaas_endpoint_private_url" "";
  mkField "TokenExchangeURL" KString "gc_token_exchange_endpoint_url" "";
  mkField "APIKey" KString "gc_api_key" "";
  mkField "ResourceGroupID" KString "gc_resource_group_id" "";
  mkField "VPCAPIGeneration" KInt "vpc_api_generation" "VPC_API_GENERATION";
  mkField "APIVersion" KString "api_version,omitempty" "VPC_API_VERSION";
  mkField "G2EndpointURL" KString "g2_riaas_endpoint_url" "";
  mkField "G2EndpointPrivateURL" KString "g2_riaas_endpoint_private_url" "";
  mkField "G2TokenExchangeURL" KString "g2_token_exchange_endpoint_url" "";
  mkField "G2APIKey" KString "g2_api_key" "";
  mkField "G2ResourceGroupID" KString "g2_resource_group_id" "";
  mkField "G2VPCAPIGeneration" KInt
          "g2_vpc_api_generation" "G2_VPC_API_GENERATION";
  mkField "G2APIVersion" KString "g2_api_version,omitempty" "G2_VPC_API_VERSION";
  mkField "Encryption" KBool "encryption" "";
  mkField "VPCTimeout" KString "vpc_api_timeout,omitempty" "VPC_API_TIMEOUT";
  mkField "MaxRetryAttempt" KInt "max_retry_attempt,omitempty" "VPC_RETRY_ATTEMPT";
  mkField "MaxRetryGap" KInt "max_retry_gap,omitempty" "VPC_RETRY_INTERVAL";
  mkField "IKSTokenExchangePrivateURL" KString
          "iks_token_exchange_endpoint_private_url" "";
  mkField "IsIKS" KBool "is_iks,omitempty" ""
].

(** IKSConfig config *)
Definition IKSConfig : StructType := [
  mkField "Enabled" KBool "iks_enabled" "IKS_ENABLED";
  mkField "IKSBlockProviderName" KString
          "iks_block_provider_name" "IKS_BLOCK_PROVIDER_NAME"
].

(** APIConfig config *)
Definition APIConfig : StructType := [
  mkField "PassthroughSecret" KString "PassthroughSecret" ""
].

(** A struct value: the values of its fields, in declaration order. *)
Definition Struct := list Value.

(** [reflect.New(T).Elem()]: the zero value of a struct type. *)
Definition zeroStruct (T : StructType) : Struct :=
  map (fun f => zeroValue (FieldKind f)) T.

(** Config is the parent struct for all the configuration information.
    Each field is a pointer to a sub-record: [None] is the nil pointer. *)
Record Config := mkConfig {
  Server : option Struct;
  Bluemix : option Struct;
  Softlayer : option Struct;
  VPC : option Struct;
  IKS : option Struct;
  API : option Struct
}.

(** The fields of [Config], for the reflective walks. *)
Inductive Sub := SubServer | SubBluemix | SubSoftlayer | SubVPC | SubIKS | SubAPI.

Definition allSubs : list Sub :=
  [SubServer; SubBluemix; SubSoftlayer; SubVPC; SubIKS; SubAPI].

Definition subName (x : Sub) : string :=
  match x with
  | SubServer => "Server"
  | SubBluemix => "Bluemix"
  | SubSoftlayer => "Softlayer"
  | SubVPC => "VPC"
  | SubIKS => "IKS"
  | SubAPI => "API"
  end.

Definition subType (x : Sub) : StructType :=
  match x with
  | SubServer => ServerConfig
  | SubBluemix => BluemixConfig
  | SubSoftlayer => SoftlayerConfig
  | SubVPC => VPCProviderConfig
  | SubIKS => IKSConfig
  | SubAPI => APIConfig
  end.

Definition getSub (x : Sub) (c : Config) : option Struct :=
  match x with
  | SubServer => Server c
  | SubBluemix => Bluemix c
  | SubSoftlayer => Softlayer c
  | SubVPC => VPC c
  | SubIKS => IKS c
  | SubAPI => API c
  end.

Definition setSub (x : Sub) (s : option Struct) (c : Config) : Config :=
  match x with
  | SubServer => mkConfig s (Bluemix c) (Softlayer c) (VPC c) (IKS c) (API c)
  | SubBluemix => mkConfig (Server c) s (Softlayer c) (VPC c) (IKS c) (API c)
  | SubSoftlayer => mkConfig (Server c) (Bluemix c) s (VPC c) (IKS c) (API c)
  | SubVPC => mkConfig (Server c) (Bluemix c) (Softlayer c) s (IKS c) (API c)
  | SubIKS => mkConfig (Server c) (Bluemix c) (Softlayer c) (VPC c) s (API c)
  | SubAPI => mkConfig (Server c) (Bluemix c) (Softlayer c) (VPC c) (IKS c) s
  end.

Definition Sub_eqb (x y : Sub) : bool :=
  match x, y with
  | SubServer, SubServer | SubBluemix, SubBluemix
  | SubSoftlayer, SubSoftlayer | SubVPC, SubVPC
  | SubIKS, SubIKS | SubAPI, SubAPI => true
  | _, _ => false
  end.

(** [v.Field(i).Set(x)]; out of range the value is left as it is (the
    loader only writes at indices of the struct's type). *)
Fixpoint setField (i : nat) (v : Value) (s : Struct) : Struct :=
  match s, i with
  | [], _ => []
  | _ :: r, O => v :: r
  | x :: r, S j => x :: setField j v r
  end.

(** A leaf of the configuration: field [i] of sub-record [x]. *)
Definition Leaf := (Sub * nat)%type.

(** The kind of field [i] of a struct type. *)
Definition kindAt (T : StructType) (i : nat) : Kind :=
  match nth_error T i with
  | Some f => FieldKind f
  | None => KString
  end.

Definition leafKind (l : Leaf) : Kind := kindAt (subType (fst l)) (snd l).

(** The value read at a leaf; an absent sub-record, having no fields
    set, reads as the zero value of the field's kind. *)
Definition readLeaf (l : Leaf) (c : Config) : Value :=
  match getSub (fst l) c with
  | Some s => nth (snd l) s (zeroValue (leafKind l))
  | None => zeroValue (leafKind l)
  end.

(** Assignment through the pointer to a sub-record, which is non-nil
    wherever the loader assigns. *)
Definition writeLeaf (l : Leaf) (v : Value) (c : Config) : Config :=
  match getSub (fst l) c with
  | Some s => setSub (fst l) (Some (setField (snd l) v s)) c
  | None => c
  end.

(** The index of a field, by its Go name. *)
Fixpoint indexOf (p : StructField -> bool) (T : StructType) : option nat :=
  match T with
  | [] => None
  | f :: r =>
      if p f then Some O
      else match indexOf p r with
           | Some i => Some (S i)
           | None => None
           end
  end.

Definition fieldNamed (x : Sub) (name : string) : Leaf :=
  match indexOf (fun f => String.eqb (Name f) name) (subType x) with
  | Some i => (x, i)
  | None => (x, length (subType x))
  end.

(* ================================================================== *)
(** ** Errors and effects *)

(** The errors the two libraries hand back. *)
Inductive Error :=
| PathError (Op Path : string)
    (** [*os.PathError] of [os.ReadFile]: the file is missing or unreadable *)
| TomlSyntaxError
    (** the file is not valid TOML *)
| TomlTypeMismatch (key expected : string)
    (** a value of the file does not have the type of its field *)
| EnvParseError (KeyName FieldName TypeName Val : string)
    (** [*envconfig.ParseError]: a variable does not convert *).

(** The two classes of the loader's errors. *)
Definition isDecodeError (e : Error) : bool :=
  match e with
  | EnvParseError _ _ _ _ => false
  | _ => true
  end.

Definition isOverlayError (e : Error) : bool :=
  match e with
  | EnvParseError _ _ _ _ => true
  | _ => false
  end.

Inductive Level := InfoLevel | ErrorLevel.

(** [zap.String(key, val)] and [zap.Error(err)]. *)
Inductive LogField :=
| ZapString (key val : string)
| ZapError (err : Error).

(** What a call does to the outside: opening a file, writing a log line. *)
Inductive Event :=
| Opened (path : string)
| Logged (lvl : Level) (msg : string) (fld : LogField).

(* ================================================================== *)
(** ** Decoding the file: [toml.DecodeFile]

    The file system gives the state of the file at a path.  A file that
    parses is given by its document: the top-level keys with their
    tables, and in each table the keys with their values, in the order
    in which the decoder visits them. *)

(** A value inside a table.  Floats, dates, arrays and nested tables go
    into no field of this schema, so only their presence is kept. *)
Inductive TomlValue :=
| TString (s : string)
| TInteger (n : Z)
| TBool (b : bool)
| TFloat
| TDatetime
| TArray
| TSubTable.

Definition TomlTable := list (string * TomlValue).

(** What a top-level key holds: a table ([[server]] ...) or a plain value. *)
Inductive TomlItem :=
| Table (kvs : TomlTable)
| Plain (v : TomlValue).

Definition TomlDocument := list (string * TomlItem).

Inductive FileState :=
| NoSuchFile
| Unreadable
| Garbled                    (** read, but not valid TOML *)
| Toml (doc : TomlDocument).

Definition FileSystem := string -> FileState.

(** The name part of a [toml] tag: what precedes the first comma. *)
Fixpoint tagName (tag : string) : string :=
  match tag with
  | EmptyString => EmptyString
  | String c r =>
      if Ascii.eqb c ","%char then EmptyString else String c (tagName r)
  end.

(** The key under which a field is looked up in the file: the name of
    its tag, or the field's own name when it has none. *)
Definition tomlName (f : StructField) : string :=
  let n := tagName (TagToml f) in
  if String.eqb n "" then Name f else n.

(** The field a key of the file goes to: the one whose name is the key,
    or else the first whose name equals it up to case. *)
Definition findField (T : StructType) (key : string) : option nat :=
  match indexOf (fun f => String.eqb (tomlName f) key) T with
  | Some i => Some i
  | None => indexOf (fun f => Strings.EqualFold (tomlName f) key) T
  end.

(** The same for the fields of [Config], which carry no [toml] tag. *)
Definition findSub (key : string) : option Sub :=
  match find (fun x => String.eqb (subName x) key) allSubs with
  | Some x => Some x
  | None => find (fun x => Strings.EqualFold (subName x) key) allSubs
  end.

(** [unifyString], [unifyBool], [unifyInt]: a value of the file goes
    into a field of its own type only. *)
Definition unifyLeaf (k : Kind) (d : TomlValue) : option Value :=
  match k, d with
  | KString, TString s => Some (VString s)
  | KBool, TBool b => Some (VBool b)
  | KInt, TInteger n => Some (VInt n)
  | _, _ => None
  end.

Definition expected (k : Kind) : string :=
  match k with
  | KString => "string"
  | KBool => "boolean"
  | KInt => "integer"
  end.

(** [unifyStruct] on a sub-record: each key of the table that names a
    field is written to it; the first value of the wrong type stops the
    decoding, and what was written before stays written. *)
Fixpoint unifyStruct (T : StructType) (tbl : TomlTable) (s : Struct)
  : Struct * option Error :=
  match tbl with
  | [] => (s, None)
  | (key, datum) :: rest =>
      match findField T key with
      | None => unifyStruct T rest s
      | Some i =>
          match unifyLeaf (kindAt T i) datum with
          | Some v => unifyStruct T rest (setField i v s)
          | None => (s, Some (TomlTypeMismatch key (expected (kindAt T i))))
          end
      end
  end.

(** [indirect]: follows a pointer field, allocating a zero sub-record
    where the pointer is nil ([subv = indirect(subv.Field(i))] in the
    decoder's [unifyStruct]); the sub-record behind a non-nil pointer is
    written in place. *)
Definition indirect (x : Sub) (c : Config) : Struct :=
  match getSub x c with
  | Some s => s
  | None => zeroStruct (subType x)
  end.

(** [unifyStruct] on [Config] itself: a top-level key that names a field
    is decoded into the sub-record behind it, in place. *)
Fixpoint unifyConfig (doc : TomlDocument) (c : Config)
  : Config * option Error :=
  match doc with
  | [] => (c, None)
  | (key, item) :: rest =>
      match findSub key with
      | None => unifyConfig rest c
      | Some x =>
          let s := indirect x c in
          match item with
          | Table tbl =>
              let '(s', err) := unifyStruct (subType x) tbl s in
              let c' := setSub x (Some s') c in
              match err with
              | Some e => (c', Some e)
              | None => unifyConfig rest c'
              end
          | Plain _ =>
              (setSub x (Some s) c, Some (TomlTypeMismatch key "table"))
          end
      end
  end.

(** [toml.DecodeFile(path, conf)]: reads the file, parses it, and only
    then writes into [conf]. *)
Definition DecodeFile (fs : FileSystem) (path : string) (conf : Config)
  : Config * option Error :=
  match fs path with
  | NoSuchFile => (conf, Some (PathError "open" path))
  | Unreadable => (conf, Some (PathError "read" path))
  | Garbled => (conf, Some TomlSyntaxError)
  | Toml doc => unifyConfig doc conf
  end.

(* ================================================================== *)
(** ** The environment overlay: [envconfig.Process] *)

(** [strconv.ParseBool]. *)
Definition ParseBool (s : string) : option bool :=
  if existsb (String.eqb s) ["1"; "t"; "T"; "TRUE"; "true"; "True"]
  then Some true
  else if existsb (String.eqb s) ["0"; "f"; "F"; "FALSE"; "false"; "False"]
  then Some false
  else None.

(** [varInfo]: what [gatherInfo] keeps of a field: its name, the key
    under which it is looked up, the alternative key (its [envconfig]
    tag, upper-cased) and the field itself. *)
Record varInfo := mkVarInfo {
  viName : string;
  viKey : string;
  viAlt : string;
  viField : Leaf
}.

(** The key of a field under a prefix: the tag when there is one, the
    field's name otherwise, after the prefix and upper-cased.  In
    [gatherInfo]:
      [info.Key = info.Name]
      [if info.Alt != "" { info.Key = info.Alt }]
      [if prefix != "" { info.Key = fmt.Sprintf("%s_%s", prefix, info.Key) }]
      [info.Key = strings.ToUpper(info.Key)]
    No field of the schema asks for [split_words] or is [ignored], and
    every field is exported, hence settable. *)
Definition keyOf (prefix : string) (f : StructField) : string :=
  let alt := Strings.ToUpper (TagEnvconfig f) in
  let key := if negb (String.eqb alt "") then alt else Name f in
  let key := if negb (String.eqb prefix "")
             then (prefix ++ "_" ++ key)%string else key in
  Strings.ToUpper key.

(** [gatherInfo] on a sub-record, from field [i] on. *)
Fixpoint gatherFields (prefix : string) (x : Sub) (i : nat) (T : StructType)
  : list varInfo :=
  match T with
  | [] => []
  | f :: r =>
      mkVarInfo (Name f) (keyOf prefix f)
                (Strings.ToUpper (TagEnvconfig f)) (x, i)
        :: gatherFields prefix x (S i) r
  end.

(** [gatherInfo("", conf)]: each field of [Config] is a struct without
    a decoder of its own, so its entry is replaced by those of its fields,
    gathered under the field's key as prefix
    ([innerPrefix = info.Key],
     [infos = append(infos[:len(infos)-1], embeddedInfos...)]).  The
    struct's own entry being dropped, its [required] tag is never read. *)
Definition gatherInfo : list varInfo :=
  flat_map
    (fun x => gatherFields (keyOf "" (mkField (subName x) KString "" ""))
                           x 0 (subType x))
    allSubs.

(** [gatherInfo] makes every nil pointer to a struct point to a zero
    instance ([f.Set(reflect.New(f.Type().Elem()))]), before any variable
    is read. *)
Definition allocate (x : Sub) (c : Config) : Config :=
  match getSub x c with
  | Some _ => c
  | None => setSub x (Some (zeroStruct (subType x))) c
  end.

Definition allocateAll (c : Config) : Config :=
  fold_right allocate c allSubs.

(** The value the overlay finds for a field: that of its key, or else,
    when the field has a tag, that of the tag alone.  In [Process]:
      [value, ok := lookupEnv(info.Key)]
      [if !ok && info.Alt != "" { value, ok = lookupEnv(info.Alt) }]
    A variable set to the empty string is set.  No leaf field has a
    [default] or a [required] tag, so an unset variable skips the field. *)
Definition lookupVar (env : Env) (info : varInfo) : option string :=
  match env (viKey info) with
  | Some v => Some v
  | None => if negb (String.eqb (viAlt info) "") then env (viAlt info) else None
  end.

Definition typeName (k : Kind) : string :=
  match k with
  | KBool => "bool"
  | KInt => "int"
  | KString => "string"
  end.

Section Overlay.

(** [strconv.ParseInt(value, 0, 64)] of Go's standard library: the
    integer a string denotes, when it denotes one that fits. *)
Variable ParseInt : string -> option Z.

(** [processField]: the value of a variable, converted to the kind of
    the field. *)
Definition processField (value : string) (k : Kind) : option Value :=
  match k with
  | KString => Some (VString value)
  | KInt => option_map VInt (ParseInt value)
  | KBool => option_map VBool (ParseBool value)
  end.

(** The loop of [Process] over the gathered fields: a field whose
    variable is unset is skipped, the first value that does not
    convert ends the loop with a [ParseError]. *)
Fixpoint processInfos (env : Env) (infos : list varInfo) (c : Config)
  : Config * option Error :=
  match infos with
  | [] => (c, None)
  | info :: rest =>
      match lookupVar env info with
      | None => processInfos env rest c
      | Some value =>
          let k := leafKind (viField info) in
          match processField value k with
          | Some v => processInfos env rest (writeLeaf (viField info) v c)
          | None =>
              (c, Some (EnvParseError (viKey info) (viName info)
                                      (typeName k) value))
          end
      end
  end.

(** [envconfig.Process("", conf)]. *)
Definition Process (env : Env) (conf : Config) : Config * option Error :=
  processInfos env gatherInfo (allocateAll conf).

(* ================================================================ *)
(** ** The loader *)

Definition logError (msg : string) (err : option Error) : list Event :=
  match err with
  | Some e => [Logged ErrorLevel msg (ZapError e)]
  | None => []
  end.

(** ParseConfig: decodes the file into [conf], then reads the
    environment variables into it; returns the error of the latter. *)
Definition ParseConfig (fs : FileSystem) (env : Env) (filePath : string)
           (conf : Config) : Config * option Error * list Event :=
  let '(conf, err) := DecodeFile fs filePath conf in
  let log1 := logError "Failed to parse config file" err in
  (* Read environment variables *)
  let '(conf, err) := Process env conf in
  let log2 := logError "Failed to gather environment config variable" err in
  (conf, err, Opened filePath :: log1 ++ log2).

(** The record [ReadConfig] starts from: only the IKS block is there. *)
Definition initialConfig : Config :=
  mkConfig None None None None (Some (zeroStruct IKSConfig)) None.

(** ReadConfig loads the config from file.  The first component is the
    returned pointer, [None] for a nil one. *)
Definition ReadConfig (fs : FileSystem) (env : Env) (confPath : string)
  : option Config * option Error * list Event :=
  (* load the default config, if confPath not provided *)
  let confPath :=
    if String.eqb confPath "" then GetDefaultConfPath env else confPath in
  (* Parse config file *)
  let conf := initialConfig in
  let log0 := Logged InfoLevel "parsing conf file"
                     (ZapString "confpath" confPath) in
  let '(conf, err, events) := ParseConfig fs env confPath conf in
  (Some conf, err, log0 :: events).

End Overlay.

(** The files a trace shows as opened. *)
Fixpoint openedFiles (events : list Event) : list string :=
  match events with
  | [] => []
  | Opened p :: r => p :: openedFiles r
  | Logged _ _ _ :: r => openedFiles r
  end.

(** The path [ReadConfig] hands to [ParseConfig]. *)
Definition effectivePath (env : Env) (confPath : string) : string :=
  if String.eqb confPath "" then GetDefaultConfPath env else confPath.

(** An integer parser to run the loader on concrete inputs: an optional
    sign and decimal digits, within 64 bits.  On such strings it is what
    [strconv.ParseInt(s, 0, 64)] computes (leading zeros apart); the
    theorems below hold for every parser. *)
Module Decimal.

Definition digit (c : ascii) : option Z :=
  let n := nat_of_ascii c in
  if (48 <=? n)%nat && (n <=? 57)%nat then Some (Z.of_nat (n - 48)) else None.

Fixpoint digits (s : string) (acc : Z) : option Z :=
  match s with
  | EmptyString => Some acc
  | String c r =>
      match digit c with
      | Some d => digits r (10 * acc + d)%Z
      | None => None
      end
  end.

Definition unsigned (s : string) : option Z :=
  match s with
  | EmptyString => None
  | _ => digits s 0%Z
  end.

Definition inRange (n : Z) : option Z :=
  if ((- 2 ^ 63 <=? n) && (n <? 2 ^ 63))%Z then Some n else None.

Definition ParseInt (s : string) : option Z :=
  match s with
  | String "-"%char r =>
      match unsigned r with Some n => inRange (- n)%Z | None => None end
  | String "+"%char r =>
      match unsigned r with Some n => inRange n | None => None end
  | _ =>
      match unsigned s with Some n => inRange n | None => None end
  end.

End Decimal.

(* ================================================================== *)
(** ** Invariants of the record *)

(** A record is well formed when each sub-record that is there has the
    fields of its type. *)
Definition wellFormed (c : Config) : Prop :=
  forall x s, getSub x c = Some s -> length s = length (subType x).

(** Every pointer of the record is non-nil. *)
Definition allocated (c : Config) : Prop :=
  forall x, getSub x c <> None.

(** A leaf names a field of the schema. *)
Definition inSchema (l : Leaf) : Prop :=
  snd l < length (subType (fst l)).


(** The leaves gathered by the overlay are pairwise distinct: a check
    that runs. *)
Definition Leaf_eqb (l l' : Leaf) : bool :=
  Sub_eqb (fst l) (fst l') && Nat.eqb (snd l) (snd l').

Fixpoint distinct (ls : list Leaf) : bool :=
  match ls with
  | [] => true
  | l :: r => negb (existsb (Leaf_eqb l) r) && distinct r
  end.

(* ================================================================== *)
(** ** Named fields, files and environments to run the loader on *)

Definition Server_DebugTrace : Leaf := fieldNamed SubServer "DebugTrace".
Definition Bluemix_IamURL : Leaf := fieldNamed SubBluemix "IamURL".
Definition VPC_Enabled : Leaf := fieldNamed SubVPC "Enabled".
Definition VPC_VPCAPIGeneration : Leaf := fieldNamed SubVPC "VPCAPIGeneration".
Definition IKS_Enabled : Leaf := fieldNamed SubIKS "Enabled".

(** No variable carrying an [envconfig] tag of the schema is set. *)
Definition taggedVariablesUnset (env : Env) : Prop :=
  forall x f,
    In f (subType x) -> TagEnvconfig f <> "" -> env (TagEnvconfig f) = None.

Module Samples.

(** A file system without files, and one with a single file. *)
Definition noFiles : FileSystem := fun _ => NoSuchFile.

Definition oneFile (path : string) (doc : TomlDocument) : FileSystem :=
  fun p => if String.eqb p path then Toml doc else NoSuchFile.

Definition defaultPath : string :=
  "src/github.com/IBM/ibmcloud-volume-interface/etc/libconfig.toml".

(** [[server]] with [debug_trace = false]. *)
Definition traceOff : TomlDocument :=
  [("server", Table [("debug_trace", TBool false)])].

(** [[server]] with [debug_trace = true]. *)
Definition traceOn : TomlDocument :=
  [("server", Table [("debug_trace", TBool true)])].

(** [[bluemix]] with [iam_url]. *)
Definition iamFromFile : TomlDocument :=
  [("bluemix", Table [("iam_url", TString "https://iam.file")])].

(** [[vpc]] with an enable flag, a generation and a key. *)
Definition vpcFile : TomlDocument :=
  [("server", Table [("debug_trace", TBool true)]);
   ("vpc", Table [("vpc_enabled", TBool true);
                  ("vpc_api_generation", TInteger 2);
                  ("g2_api_key", TString "secret")])].

Definition envTraceOn : Env := setenv "DEBUG_TRACE" "true" emptyEnv.
Definition envTraceBad : Env := setenv "DEBUG_TRACE" "maybe" emptyEnv.
Definition envIamURL : Env := setenv "BLUEMIX_IAMURL" "https://iam.env" emptyEnv.
Definition envGenerationBad : Env :=
  setenv "VPC_API_GENERATION" "notanumber" emptyEnv.
Definition envSecret : Env := setenv "SECRET_CONFIG_PATH" "/tmp/cfg" emptyEnv.
Definition envSecretAndGoPath : Env :=
  setenv "GOPATH" "/home/dev/go" envSecret.

End Samples.

(* ================================================================== *)
(** ** Notions for the properties of the paths and of the overlay *)

(** [filepath.IsAbs] with the Unix separator: the path begins with it. *)
Definition IsAbs (path : string) : bool :=
  match path with
  | EmptyString => false
  | String c _ => Filepath.isSep c
  end.

(** The names of the variables the overlay looks up for a field: its
    key, and its tag when it has one. *)
Definition consultedNames (info : varInfo) : list string :=
  viKey info :: (if String.eqb (viAlt info) "" then [] else [viAlt info]).

(** Pairwise distinct strings: a check that runs. *)
Fixpoint distinctNames (names : list string) : bool :=
  match names with
  | [] => true
  | n :: r => negb (existsb (String.eqb n) r) && distinctNames r
  end.

(** The variable found for a field converts, or none is found. *)
Definition convertible (ParseInt : string -> option Z) (env : Env)
           (info : varInfo) : Prop :=
  match lookupVar env info with
  | Some value =>
      processField ParseInt value (leafKind (viField info)) <> None
  | None => True
  end.

(** More files and environments to run the loader on. *)
Module MoreSamples.

(** [[iks]] decodes, then [[server]] gives a string where a flag goes. *)
Definition traceMistyped : TomlDocument :=
  [("iks", Table [("iks_enabled", TBool true)]);
   ("server", Table [("debug_trace", TString "yes")])].

(** [[vpc]] with the API generation alone. *)
Definition generationOnly : TomlDocument :=
  [("vpc", Table [("vpc_api_generation", TInteger 2)])].

(** A flag before the VPC generation, a flag after it, and for the
    generation a value that is no number. *)
Definition envMixed : Env :=
  setenv "IKS_ENABLED" "true"
    (setenv "VPC_API_GENERATION" "notanumber"
       (setenv "DEBUG_TRACE" "true" emptyEnv)).

(** A variable no field looks up, beside DEBUG_TRACE. *)
Definition envWithHome : Env := setenv "HOME" "/root" Samples.envTraceOn.

Definition infoDebugTrace : varInfo :=
  mkVarInfo "DebugTrace" "SERVER_DEBUG_TRACE" "DEBUG_TRACE" (SubServer, 0).

Definition infoGeneration : varInfo :=
  mkVarInfo "VPCAPIGeneration" "VPC_VPC_API_GENERATION" "VPC_API_GENERATION"
            (SubVPC, 11).

Definition fieldGeneration : StructField :=
  mkField "VPCAPIGeneration" KInt "vpc_api_generation" "VPC_API_GENERATION".

End MoreSamples.
(* ================================================================== *)
(** ** Sub-records and leaves *)

Lemma getSub_setSub_same (x : Sub) (s : option Struct) (c : Config) :
  getSub x (setSub x s c) = s.
Proof. destruct x; reflexivity. Qed.

Lemma getSub_setSub_other (x y : Sub) (s : option Struct) (c : Config) :
  x <> y -> getSub y (setSub x s c) = getSub y c.
Proof. destruct x, y; intros H; try reflexivity; congruence. Qed.

Lemma Sub_eq_dec (x y : Sub) : {x = y} + {x <> y}.
Proof. decide equality. Defined.

Lemma Leaf_eq_dec (l l' : Leaf) : {l = l'} + {l <> l'}.
Proof. decide equality; [apply Nat.eq_dec | apply Sub_eq_dec]. Defined.

Lemma setField_length (i : nat) (v : Value) (s : Struct) :
  length (setField i v s) = length s.
Proof.
  revert i; induction s as [|a s IH]; intros [|i]; simpl; auto.
Qed.

Lemma nth_setField_same (i : nat) (v d : Value) (s : Struct) :
  i < length s -> nth i (setField i v s) d = v.
Proof.
  revert i; induction s as [|a s IH]; intros [|i] H; simpl in *;
    try lia; auto.
  apply IH; lia.
Qed.

Lemma nth_setField_other (i j : nat) (v d : Value) (s : Struct) :
  i <> j -> nth j (setField i v s) d = nth j s d.
Proof.
  revert i j; induction s as [|a s IH]; intros [|i] [|j] H; simpl;
    try congruence; auto.
Qed.

Lemma nth_zeroStruct (T : StructType) (i : nat) :
  nth i (zeroStruct T) (zeroValue (kindAt T i)) = zeroValue (kindAt T i).
Proof.
  unfold kindAt.
  revert i; induction T as [|f T IH]; intros [|i]; simpl; auto.
Qed.

Lemma zeroStruct_length (T : StructType) : length (zeroStruct T) = length T.
Proof. apply length_map. Qed.

Lemma readLeaf_writeLeaf_other (l l' : Leaf) (v : Value) (c : Config) :
  l <> l' -> readLeaf l (writeLeaf l' v c) = readLeaf l c.
Proof.
  destruct l as [x i], l' as [y j]; unfold readLeaf, writeLeaf; simpl.
  intros Hne.
  destruct (getSub y c) as [s|] eqn:Hy; [|reflexivity].
  destruct (Sub_eq_dec y x) as [->|Hxy].
  - rewrite getSub_setSub_same, Hy.
    apply nth_setField_other. congruence.
  - rewrite getSub_setSub_other by assumption. reflexivity.
Qed.

Lemma readLeaf_writeLeaf_same (l : Leaf) (v : Value) (c : Config) :
  wellFormed c -> allocated c -> inSchema l ->
  readLeaf l (writeLeaf l v c) = v.
Proof.
  destruct l as [x i]; unfold readLeaf, writeLeaf, inSchema; simpl.
  intros Hwf Hal Hin.
  destruct (getSub x c) as [s|] eqn:Hx; [|destruct (Hal x Hx)].
  rewrite getSub_setSub_same.
  apply nth_setField_same. rewrite (Hwf x s Hx). exact Hin.
Qed.

Lemma writeLeaf_wellFormed (l : Leaf) (v : Value) (c : Config) :
  wellFormed c -> wellFormed (writeLeaf l v c).
Proof.
  destruct l as [x i]; unfold writeLeaf; simpl. intros Hwf y s.
  destruct (getSub x c) as [sx|] eqn:Hx; [|apply Hwf].
  destruct (Sub_eq_dec x y) as [<-|Hxy].
  - rewrite getSub_setSub_same. intros [= <-].
    rewrite setField_length. apply Hwf, Hx.
  - rewrite getSub_setSub_other by assumption. apply Hwf.
Qed.

Lemma writeLeaf_getSub_some (l : Leaf) (v : Value) (c : Config) (y : Sub) :
  getSub y c <> None -> getSub y (writeLeaf l v c) <> None.
Proof.
  destruct l as [x i]; unfold writeLeaf; simpl. intros Hy.
  destruct (getSub x c) as [sx|] eqn:Hx; [|exact Hy].
  destruct (Sub_eq_dec x y) as [<-|Hxy].
  - rewrite getSub_setSub_same. discriminate.
  - rewrite getSub_setSub_other by assumption. exact Hy.
Qed.

Lemma writeLeaf_allocated (l : Leaf) (v : Value) (c : Config) :
  allocated c -> allocated (writeLeaf l v c).
Proof. intros H y. apply writeLeaf_getSub_some, H. Qed.

Lemma Leaf_eqb_eq (l l' : Leaf) : Leaf_eqb l l' = true <-> l = l'.
Proof.
  destruct l as [x i], l' as [y j]; unfold Leaf_eqb; simpl.
  rewrite andb_true_iff, Nat.eqb_eq. split.
  - intros [Hx ->]. destruct x, y; simpl in Hx; congruence.
  - intros [= -> ->]. split; [destruct y|]; reflexivity.
Qed.

Lemma distinct_NoDup (ls : list Leaf) : distinct ls = true -> NoDup ls.
Proof.
  induction ls as [|l r IH]; simpl; intros H; constructor.
  - apply andb_true_iff in H as [H _].
    intros Hin. apply negb_true_iff in H.
    assert (existsb (Leaf_eqb l) r = true) as E; [|congruence].
    apply existsb_exists. exists l. split; [exact Hin | now apply Leaf_eqb_eq].
  - apply IH. now apply andb_true_iff in H as [_ H].
Qed.

(* ================================================================== *)
(** ** What [gatherInfo] gathers *)

Lemma gatherInfo_NoDup : NoDup (map viField gatherInfo).
Proof. apply distinct_NoDup. vm_compute. reflexivity. Qed.

Lemma gatherInfo_inSchema :
  forall info, In info gatherInfo -> inSchema (viField info).
Proof.
  assert (Forall (fun info => inSchema (viField info)) gatherInfo) as H.
  { unfold inSchema. repeat constructor. }
  intros info Hin. rewrite Forall_forall in H. exact (H info Hin).
Qed.

(* ================================================================== *)
(** ** The allocation of the sub-records *)

Lemma allocateAll_allocated (c : Config) : allocated (allocateAll c).
Proof.
  destruct c as [[a|] [b|] [d|] [e|] [f|] [g|]];
    intros [] ; cbv; discriminate.
Qed.

Lemma allocateAll_getSub (c : Config) (x : Sub) :
  getSub x (allocateAll c) = Some (indirect x c).
Proof.
  destruct c as [[a|] [b|] [d|] [e|] [f|] [g|]]; destruct x; reflexivity.
Qed.

Lemma readLeaf_indirect (l : Leaf) (c : Config) :
  nth (snd l) (indirect (fst l) c) (zeroValue (leafKind l)) = readLeaf l c.
Proof.
  unfold readLeaf, indirect, leafKind.
  destruct (getSub (fst l) c); [reflexivity | apply nth_zeroStruct].
Qed.

Lemma readLeaf_allocateAll (l : Leaf) (c : Config) :
  readLeaf l (allocateAll c) = readLeaf l c.
Proof.
  rewrite <- (readLeaf_indirect l c).
  unfold readLeaf at 1. now rewrite allocateAll_getSub.
Qed.

Lemma indirect_length (x : Sub) (c : Config) :
  wellFormed c -> length (indirect x c) = length (subType x).
Proof.
  intros Hwf. unfold indirect.
  destruct (getSub x c) eqn:E; [now apply Hwf | apply zeroStruct_length].
Qed.

Lemma allocateAll_wellFormed (c : Config) :
  wellFormed c -> wellFormed (allocateAll c).
Proof.
  intros Hwf x s. rewrite allocateAll_getSub. intros [= <-].
  now apply indirect_length.
Qed.

(* ================================================================== *)
(** ** The overlay loop *)

Section OverlayFacts.

Variable ParseInt : string -> option Z.
Variable env : Env.

Local Abbreviation processInfos := (processInfos ParseInt env).
Local Abbreviation Process := (Process ParseInt env).

(** A field none of whose entries finds a variable is left alone. *)
Lemma processInfos_unset (infos : list varInfo) :
  forall c c' err l,
    processInfos infos c = (c', err) ->
    (forall info, In info infos -> viField info = l ->
                  lookupVar env info = None) ->
    readLeaf l c' = readLeaf l c.
Proof.
  induction infos as [|a infos IH]; simpl; intros c c' err l Hrun Hun.
  - now inversion Hrun.
  - destruct (lookupVar env a) as [value|] eqn:Hl.
    + destruct (processField ParseInt value (leafKind (viField a)))
        as [v|] eqn:Hp.
      * rewrite (IH _ _ _ l Hrun) by (intros; apply Hun; auto).
        apply readLeaf_writeLeaf_other. intros ->.
        specialize (Hun a (or_introl eq_refl) eq_refl). congruence.
      * now inversion Hrun.
    + apply (IH _ _ _ l Hrun). intros; apply Hun; auto.
Qed.

Lemma processInfos_wellFormed (infos : list varInfo) :
  forall c c' err,
    processInfos infos c = (c', err) -> wellFormed c -> wellFormed c'.
Proof.
  induction infos as [|a infos IH]; simpl; intros c c' err Hrun Hwf.
  - now inversion Hrun; subst.
  - destruct (lookupVar env a) as [value|]; [|eauto].
    destruct (processField ParseInt value (leafKind (viField a))) as [v|].
    + eapply IH; [exact Hrun|]. now apply writeLeaf_wellFormed.
    + now inversion Hrun; subst.
Qed.

Lemma processInfos_getSub_some (infos : list varInfo) (y : Sub) :
  forall c c' err,
    processInfos infos c = (c', err) ->
    getSub y c <> None -> getSub y c' <> None.
Proof.
  induction infos as [|a infos IH]; simpl; intros c c' err Hrun Hy.
  - now inversion Hrun; subst.
  - destruct (lookupVar env a) as [value|]; [|eauto].
    destruct (processField ParseInt value (leafKind (viField a))) as [v|].
    + eapply IH; [exact Hrun|]. now apply writeLeaf_getSub_some.
    + now inversion Hrun; subst.
Qed.

(** When the loop ends without error, a field that found a variable
    holds its converted value. *)
Lemma processInfos_set (infos : list varInfo) :
  forall c c',
    wellFormed c -> allocated c ->
    NoDup (map viField infos) ->
    (forall info, In info infos -> inSchema (viField info)) ->
    processInfos infos c = (c', None) ->
    forall info value,
      In info infos -> lookupVar env info = Some value ->
      exists v,
        processField ParseInt value (leafKind (viField info)) = Some v
        /\ readLeaf (viField info) c' = v.
Proof.
  induction infos as [|a infos IH]; simpl;
    intros c c' Hwf Hal Hnd Hin Hrun info value Hmem Hl; [easy|].
  inversion Hnd as [|? ? Hnotin Hnd']; subst.
  destruct Hmem as [->|Hmem].
  - rewrite Hl in Hrun.
    destruct (processField ParseInt value (leafKind (viField info)))
      as [v|] eqn:Hp; [|discriminate].
    exists v. split; [reflexivity|].
    rewrite (processInfos_unset _ _ _ _ (viField info) Hrun).
    + apply readLeaf_writeLeaf_same; auto.
    + intros i Hi E. destruct Hnotin. rewrite <- E. now apply in_map.
  - assert (forall i, In i infos -> inSchema (viField i)) as Hin'
      by (intros; apply Hin; now right).
    destruct (lookupVar env a) as [va|].
    + destruct (processField ParseInt va (leafKind (viField a)))
        as [v|]; [|discriminate].
      eapply (IH (writeLeaf (viField a) v c));
        eauto using writeLeaf_wellFormed, writeLeaf_allocated.
    + eapply (IH c); eauto.
Qed.


(** When the loop ends with an error, the error names a field whose
    variable does not convert, and that field is left alone. *)
Lemma processInfos_failed (infos : list varInfo) :
  forall c c' e,
    NoDup (map viField infos) ->
    processInfos infos c = (c', Some e) ->
    exists info value,
      In info infos
      /\ lookupVar env info = Some value
      /\ processField ParseInt value (leafKind (viField info)) = None
      /\ e = EnvParseError (viKey info) (viName info)
                           (typeName (leafKind (viField info))) value
      /\ readLeaf (viField info) c' = readLeaf (viField info) c.
Proof.
  induction infos as [|a infos IH]; simpl; intros c c' e Hnd Hrun;
    [discriminate|].
  inversion Hnd as [|? ? Hnotin Hnd']; subst.
  destruct (lookupVar env a) as [va|] eqn:Hl.
  - destruct (processField ParseInt va (leafKind (viField a)))
      as [v|] eqn:Hp.
    + destruct (IH _ _ _ Hnd' Hrun)
        as (info & value & Hi & Hlk & Hpf & He & Hr).
      exists info, value. repeat split; auto.
      rewrite Hr. apply readLeaf_writeLeaf_other.
      intros E. destruct Hnotin. rewrite <- E. now apply in_map.
    + inversion Hrun; subst. exists a, va. repeat split; auto.
  - destruct (IH _ _ _ Hnd' Hrun)
      as (info & value & Hi & Hlk & Hpf & He & Hr).
    exists info, value. repeat split; auto.
Qed.

(** With no variable to be found the loop changes nothing. *)
Lemma processInfos_all_unset (infos : list varInfo) (c : Config) :
  (forall info, In info infos -> lookupVar env info = None) ->
  processInfos infos c = (c, None).
Proof.
  induction infos as [|a infos IH]; simpl; intros H; [reflexivity|].
  rewrite (H a (or_introl eq_refl)). apply IH. intros; apply H; auto.
Qed.

(** The overlay's errors are overlay errors. *)
Lemma processInfos_error_class (infos : list varInfo) :
  forall c c' e,
    processInfos infos c = (c', Some e) -> isOverlayError e = true.
Proof.
  induction infos as [|a infos IH]; simpl; intros c c' e Hrun;
    [discriminate|].
  destruct (lookupVar env a) as [va|]; [|eauto].
  destruct (processField ParseInt va (leafKind (viField a))); [eauto|].
  now inversion Hrun.
Qed.

(** [Process] leaves every pointer non-nil. *)
Lemma Process_allocated (c c' : Config) (err : option Error) :
  Process c = (c', err) -> allocated c'.
Proof.
  intros H x. eapply processInfos_getSub_some; [exact H|].
  apply allocateAll_allocated.
Qed.

End OverlayFacts.

(* ================================================================== *)
(** ** The file decoder *)

Lemma unifyStruct_length (T : StructType) (tbl : TomlTable) :
  forall s, length (fst (unifyStruct T tbl s)) = length s.
Proof.
  induction tbl as [|[key datum] tbl IH]; simpl; intros s; [reflexivity|].
  destruct (findField T key) as [i|]; [|apply IH].
  destruct (unifyLeaf (kindAt T i) datum) as [v|]; [|reflexivity].
  rewrite IH. apply setField_length.
Qed.

Lemma setSub_wellFormed (x : Sub) (s : Struct) (c : Config) :
  wellFormed c -> length s = length (subType x) ->
  wellFormed (setSub x (Some s) c).
Proof.
  intros Hwf Hlen y t. destruct (Sub_eq_dec x y) as [<-|Hxy].
  - rewrite getSub_setSub_same. now intros [= <-].
  - rewrite getSub_setSub_other by assumption. apply Hwf.
Qed.

Lemma setSub_getSub_some (x y : Sub) (s : Struct) (c : Config) :
  getSub y c <> None -> getSub y (setSub x (Some s) c) <> None.
Proof.
  intros Hy. destruct (Sub_eq_dec x y) as [<-|Hxy].
  - rewrite getSub_setSub_same. discriminate.
  - now rewrite getSub_setSub_other by assumption.
Qed.

Lemma unifyConfig_wellFormed (doc : TomlDocument) :
  forall c, wellFormed c -> wellFormed (fst (unifyConfig doc c)).
Proof.
  induction doc as [|[key item] doc IH]; simpl; intros c Hwf; [exact Hwf|].
  destruct (findSub key) as [x|]; [|now apply IH].
  destruct item as [tbl|v].
  - destruct (unifyStruct (subType x) tbl (indirect x c)) as [s' err] eqn:E.
    assert (wellFormed (setSub x (Some s') c)) as Hwf'.
    { apply setSub_wellFormed; [exact Hwf|].
      change s' with (fst (s', err)). rewrite <- E, unifyStruct_length.
      now apply indirect_length. }
    destruct err; [exact Hwf' | now apply IH].
  - simpl. apply setSub_wellFormed; [exact Hwf | now apply indirect_length].
Qed.

(** The decoder never makes a non-nil pointer nil. *)
Lemma unifyConfig_getSub_some (doc : TomlDocument) (y : Sub) :
  forall c, getSub y c <> None -> getSub y (fst (unifyConfig doc c)) <> None.
Proof.
  induction doc as [|[key item] doc IH]; simpl; intros c Hy; [exact Hy|].
  destruct (findSub key) as [x|]; [|now apply IH].
  destruct item as [tbl|v].
  - destruct (unifyStruct (subType x) tbl (indirect x c)) as [s' err].
    destruct err; [|apply IH]; now apply setSub_getSub_some.
  - simpl. now apply setSub_getSub_some.
Qed.

Lemma DecodeFile_wellFormed (fs : FileSystem) (path : string) (c : Config) :
  wellFormed c -> wellFormed (fst (DecodeFile fs path c)).
Proof.
  intros Hwf. unfold DecodeFile.
  destruct (fs path); try exact Hwf. now apply unifyConfig_wellFormed.
Qed.

Lemma DecodeFile_getSub_some (fs : FileSystem) (path : string) (c : Config)
      (y : Sub) :
  getSub y c <> None -> getSub y (fst (DecodeFile fs path c)) <> None.
Proof.
  intros Hy. unfold DecodeFile.
  destruct (fs path); try exact Hy. now apply unifyConfig_getSub_some.
Qed.

Lemma unifyStruct_error_class (T : StructType) (tbl : TomlTable) :
  forall s s' e, unifyStruct T tbl s = (s', Some e) -> isDecodeError e = true.
Proof.
  induction tbl as [|[key datum] tbl IH]; simpl; intros s s' e H;
    [discriminate|].
  destruct (findField T key) as [i|]; [|eauto].
  destruct (unifyLeaf (kindAt T i) datum) as [v|]; [eauto|].
  now inversion H.
Qed.

Lemma unifyConfig_error_class (doc : TomlDocument) :
  forall c c' e, unifyConfig doc c = (c', Some e) -> isDecodeError e = true.
Proof.
  induction doc as [|[key item] doc IH]; simpl; intros c c' e H;
    [discriminate|].
  destruct (findSub key) as [x|]; [|eauto].
  destruct item as [tbl|v].
  - destruct (unifyStruct (subType x) tbl (indirect x c)) as [s' err] eqn:E.
    destruct err as [e'|]; [|eauto].
    inversion H; subst. eapply unifyStruct_error_class, E.
  - now inversion H.
Qed.

(** The decoder's errors are decode errors. *)
Lemma DecodeFile_error_class (fs : FileSystem) (path : string)
      (c c' : Config) (e : Error) :
  DecodeFile fs path c = (c', Some e) -> isDecodeError e = true.
Proof.
  unfold DecodeFile. destruct (fs path);
    try (intros [= <- <-]; reflexivity).
  apply unifyConfig_error_class.
Qed.

(** A file that is missing, unreadable or not TOML leaves the record
    as it was. *)
Lemma DecodeFile_no_document (fs : FileSystem) (path : string) (c : Config) :
  fs path = NoSuchFile \/ fs path = Unreadable \/ fs path = Garbled ->
  exists e, DecodeFile fs path c = (c, Some e).
Proof.
  unfold DecodeFile. intros [H|[H|H]]; rewrite H; eauto.
Qed.

(* ================================================================== *)
(** ** The record the loader starts from *)

Lemma initialConfig_wellFormed : wellFormed initialConfig.
Proof. intros [] s; simpl; intros [= <-]; reflexivity. Qed.

Lemma readLeaf_initialConfig (l : Leaf) :
  readLeaf l initialConfig = zeroValue (leafKind l).
Proof.
  destruct l as [[] i]; try reflexivity.
  unfold readLeaf, leafKind; simpl. apply (nth_zeroStruct IKSConfig).
Qed.

(* ================================================================== *)
(** ** The loader, step by step *)

Lemma openedFiles_logError (msg : string) (err : option Error) :
  openedFiles (logError msg err) = [].
Proof. destruct err; reflexivity. Qed.

Lemma openedFiles_app (a b : list Event) :
  openedFiles (a ++ b) = openedFiles a ++ openedFiles b.
Proof.
  induction a as [|[p|lvl msg fld] a IH]; simpl; [reflexivity| |exact IH].
  now rewrite IH.
Qed.

Lemma ParseConfig_steps (P : string -> option Z) (fs : FileSystem) (env : Env)
      (path : string) (conf c1 c2 : Config) (e1 e2 : option Error) :
  DecodeFile fs path conf = (c1, e1) ->
  Process P env c1 = (c2, e2) ->
  ParseConfig P fs env path conf =
    (c2, e2,
     Opened path :: logError "Failed to parse config file" e1
       ++ logError "Failed to gather environment config variable" e2).
Proof. intros H1 H2. unfold ParseConfig. now rewrite H1, H2. Qed.

Lemma ReadConfig_steps (P : string -> option Z) (fs : FileSystem) (env : Env)
      (p : string) (c1 c2 : Config) (e1 e2 : option Error) :
  DecodeFile fs (effectivePath env p) initialConfig = (c1, e1) ->
  Process P env c1 = (c2, e2) ->
  ReadConfig P fs env p =
    (Some c2, e2,
     Logged InfoLevel "parsing conf file"
            (ZapString "confpath" (effectivePath env p))
       :: Opened (effectivePath env p)
       :: logError "Failed to parse config file" e1
       ++ logError "Failed to gather environment config variable" e2).
Proof.
  intros H1 H2. unfold ReadConfig. fold (effectivePath env p).
  now rewrite (ParseConfig_steps P fs env _ _ c1 c2 e1 e2 H1 H2).
Qed.

(* ================================================================== *)
(** ** [Clean] runs to the end of the path *)

Lemma element_length (path : list ascii) :
  length (snd (Filepath.element path)) <= length path.
Proof.
  induction path as [|c r IH]; simpl; [lia|].
  destruct (Filepath.isSep c); simpl; [lia|].
  destruct (Filepath.element r); simpl in *. lia.
Qed.

(** The loop of [Clean] consumes the path: any two amounts of fuel that
    cover the path's length give the same buffer, so the fuel [Clean]
    hands over, the length of the path, never runs out early. *)
Lemma cleanLoop_fuel (n : nat) :
  forall m rooted path buf dotdot,
    length path <= n -> length path <= m ->
    Filepath.cleanLoop n rooted path buf dotdot
    = Filepath.cleanLoop m rooted path buf dotdot.
Proof.
  induction n as [|n IH]; intros m rooted path buf dotdot Hn Hm.
  - destruct path; [|simpl in Hn; lia]. destruct m; reflexivity.
  - destruct path as [|c r1]; [destruct m; reflexivity|].
    destruct m as [|m]; [simpl in Hm; lia|].
    simpl in Hn, Hm. cbn [Filepath.cleanLoop].
    destruct (Filepath.isSep c) eqn:Hsep; [apply IH; lia|].
    destruct (Filepath.isDot c && Filepath.atBoundary r1);
      [apply IH; lia|].
    destruct (Filepath.isDot c &&
              match r1 with
              | [] => false
              | d :: r2 => Filepath.isDot d && Filepath.atBoundary r2
              end).
    + assert (length (tl r1) <= n /\ length (tl r1) <= m) as [H1 H2]
        by (destruct r1; simpl in *; lia).
      destruct (dotdot <? length buf)%nat; [now apply IH|].
      destruct (negb rooted); now apply IH.
    + pose proof (element_length r1) as Hlen.
      cbn [Filepath.element]. rewrite Hsep.
      destruct (Filepath.element r1) as [e rest]. simpl in Hlen.
      apply IH; lia.
Qed.

(* ================================================================== *)
(** ** Path resolution *)

(** C8: in every environment where SECRET_CONFIG_PATH is set to /tmp/cfg,
    [GetConfPath] returns /tmp/cfg/libconfig.toml, whatever GOPATH and the
    other variables are. *)
Theorem GetConfPath_secret_dir (env : Env) :
  env "SECRET_CONFIG_PATH" = Some "/tmp/cfg" ->
  GetConfPath env = "/tmp/cfg/libconfig.toml".
Proof.
  intros H. unfold GetConfPath, getEnv, Getenv.
  change (Strings.ToUpper "SECRET_CONFIG_PATH") with "SECRET_CONFIG_PATH".
  rewrite H. reflexivity.
Qed.

Lemma GetConfPath_secret_dir_witness :
  Samples.envSecretAndGoPath "SECRET_CONFIG_PATH" = Some "/tmp/cfg"
  /\ Samples.envSecretAndGoPath "GOPATH" = Some "/home/dev/go"
  /\ GetConfPath Samples.envSecretAndGoPath = "/tmp/cfg/libconfig.toml".
Proof.
  split; [reflexivity|]. split; [reflexivity|].
  apply (GetConfPath_secret_dir Samples.envSecretAndGoPath). reflexivity.
Defined.

(** C10: in every environment where GOPATH is unset or empty, [GetEtcPath]
    returns the relative path src/github.com/IBM/ibmcloud-volume-interface/etc
    and [GetDefaultConfPath] that path followed by /libconfig.toml: the empty
    root is dropped by the join, and both calls return a path, not an
    error. *)
Theorem default_paths_without_GOPATH (env : Env) :
  env "GOPATH" = None \/ env "GOPATH" = Some "" ->
  GetEtcPath env = "src/github.com/IBM/ibmcloud-volume-interface/etc"
  /\ GetDefaultConfPath env
     = "src/github.com/IBM/ibmcloud-volume-interface/etc/libconfig.toml"
  /\ String.prefix "/" (GetEtcPath env) = false
  /\ String.prefix "/" (GetDefaultConfPath env) = false.
Proof.
  intros H.
  assert (GetGoPath env = "") as Hgo.
  { unfold GetGoPath, getEnv, Getenv.
    change (Strings.ToUpper "GOPATH") with "GOPATH".
    destruct H as [-> | ->]; reflexivity. }
  assert (GetEtcPath env
          = "src/github.com/IBM/ibmcloud-volume-interface/etc") as Hetc.
  { unfold GetEtcPath. rewrite Hgo. reflexivity. }
  assert (GetDefaultConfPath env
          = "src/github.com/IBM/ibmcloud-volume-interface/etc/libconfig.toml")
    as Hdef.
  { unfold GetDefaultConfPath. rewrite Hetc. reflexivity. }
  rewrite Hetc, Hdef. repeat split; reflexivity.
Qed.

Lemma default_paths_without_GOPATH_witness :
  GetEtcPath emptyEnv = "src/github.com/IBM/ibmcloud-volume-interface/etc"
  /\ GetDefaultConfPath emptyEnv
     = "src/github.com/IBM/ibmcloud-volume-interface/etc/libconfig.toml"
  /\ String.prefix "/" (GetEtcPath emptyEnv) = false
  /\ String.prefix "/" (GetDefaultConfPath emptyEnv) = false.
Proof.
  apply (default_paths_without_GOPATH emptyEnv). left. reflexivity.
Defined.

(** The default path does not depend on SECRET_CONFIG_PATH. *)
Lemma GetDefaultConfPath_ignores_secret (env : Env) (v : string) :
  GetDefaultConfPath (setenv "SECRET_CONFIG_PATH" v env)
  = GetDefaultConfPath env.
Proof. reflexivity. Qed.

(* ================================================================== *)
(** ** The loader *)

Section Loader.

Variable ParseInt : string -> option Z.

Local Abbreviation Process := (Process ParseInt).
Local Abbreviation ParseConfig := (ParseConfig ParseInt).
Local Abbreviation ReadConfig := (ReadConfig ParseInt).

(** The record a load returns is the overlay of the decoded record, and
    the error it returns is the overlay's. *)
Lemma ReadConfig_result (fs : FileSystem) (env : Env) (p : string) :
  let decoded := DecodeFile fs (effectivePath env p) initialConfig in
  let overlaid := Process env (fst decoded) in
  ReadConfig fs env p =
    (Some (fst overlaid), snd overlaid,
     Logged InfoLevel "parsing conf file"
            (ZapString "confpath" (effectivePath env p))
       :: Opened (effectivePath env p)
       :: logError "Failed to parse config file" (snd decoded)
       ++ logError "Failed to gather environment config variable"
                   (snd overlaid)).
Proof.
  intros decoded overlaid.
  apply (ReadConfig_steps ParseInt fs env p (fst decoded) (fst overlaid)
                          (snd decoded) (snd overlaid));
    [subst decoded | subst overlaid]; apply surjective_pairing.
Qed.

Lemma decoded_wellFormed (fs : FileSystem) (path : string) :
  wellFormed (fst (DecodeFile fs path initialConfig)).
Proof. apply DecodeFile_wellFormed, initialConfig_wellFormed. Qed.

(** C6: for every path, file system and environment, the pointer
    [ReadConfig] returns is non-nil, whether or not it also returns an
    error. *)
Theorem ReadConfig_never_nil (fs : FileSystem) (env : Env) (p : string) :
  fst (fst (ReadConfig fs env p)) <> None.
Proof. rewrite ReadConfig_result. simpl. discriminate. Qed.

(** C7: for every path, file system and environment, the IKS sub-record
    of the record [ReadConfig] returns is non-nil: it is there before the
    decoding, and neither the decoding nor the overlay takes it away. *)
Theorem ReadConfig_IKS_never_nil (fs : FileSystem) (env : Env) (p : string) :
  IKS initialConfig <> None
  /\ exists conf,
      fst (fst (ReadConfig fs env p)) = Some conf /\ IKS conf <> None.
Proof.
  split; [unfold initialConfig; simpl; congruence|].
  rewrite ReadConfig_result. simpl.
  assert (getSub SubIKS
            (fst (DecodeFile fs (effectivePath env p) initialConfig))
          <> None) as Hdec.
  { apply DecodeFile_getSub_some. unfold initialConfig; simpl; congruence. }
  destruct (DecodeFile fs (effectivePath env p) initialConfig) as [c1 e1].
  cbn [fst snd] in *.
  destruct (Process env c1) as [c2 e2] eqn:Ho. cbn [fst snd].
  exists c2. split; [reflexivity|].
  apply (processInfos_getSub_some _ _ _ SubIKS _ _ _ Ho).
  rewrite allocateAll_getSub. unfold indirect.
  destruct (getSub SubIKS c1); [discriminate | now destruct Hdec].
Qed.

(** C1, amended: when both steps fail, the error [ParseConfig] returns,
    and [ReadConfig] with it, is the overlay's; the decode error is
    written to the log and returned to no one. *)
Theorem load_returns_overlay_error (fs : FileSystem) (env : Env)
        (path : string) (conf c1 c2 : Config) (ed eo : Error) :
  DecodeFile fs path conf = (c1, Some ed) ->
  Process env c1 = (c2, Some eo) ->
  exists events,
    ParseConfig fs env path conf = (c2, Some eo, events)
    /\ isDecodeError ed = true
    /\ isOverlayError eo = true
    /\ eo <> ed
    /\ In (Logged ErrorLevel "Failed to parse config file" (ZapError ed))
          events
    /\ snd (fst (ReadConfig fs env path))
       = snd (fst (ParseConfig fs env (effectivePath env path) initialConfig)).
Proof.
  intros Hd Ho.
  pose proof (DecodeFile_error_class _ _ _ _ _ Hd) as Hcd.
  pose proof (processInfos_error_class _ _ _ _ _ _ Ho) as Hco.
  eexists. split; [apply (ParseConfig_steps _ _ _ _ _ _ _ _ _ Hd Ho)|].
  repeat split; auto.
  - intros ->. destruct ed; discriminate.
  - simpl. right. left. reflexivity.
  - unfold ReadConfig. fold (effectivePath env path).
    destruct (ParseConfig fs env (effectivePath env path) initialConfig)
      as [[c e] ev].
    reflexivity.
Qed.

(** C2, amended: when the path names a file that is missing, unreadable or
    not TOML, [ReadConfig] returns the overlay of the initial record, with
    its IKS sub-record non-nil, and the overlay's error, none when the
    overlay succeeds; the decode error is only logged.  Every field for
    which the overlay finds no variable is zero. *)
Theorem load_without_document (fs : FileSystem) (env : Env) (p : string) :
  fs (effectivePath env p) = NoSuchFile
  \/ fs (effectivePath env p) = Unreadable
  \/ fs (effectivePath env p) = Garbled ->
  exists conf ed events,
    ReadConfig fs env p
    = (Some conf, snd (Process env initialConfig), events)
    /\ conf = fst (Process env initialConfig)
    /\ IKS conf <> None
    /\ isDecodeError ed = true
    /\ In (Logged ErrorLevel "Failed to parse config file" (ZapError ed))
          events
    /\ forall l,
        (forall info, In info gatherInfo -> viField info = l ->
                      lookupVar env info = None) ->
        readLeaf l conf = zeroValue (leafKind l).
Proof.
  intros Hfile.
  destruct (DecodeFile_no_document fs _ initialConfig Hfile) as [ed Hd].
  destruct (Process env initialConfig) as [c2 e2] eqn:Ho.
  exists c2, ed. eexists.
  split; [apply (ReadConfig_steps _ _ _ _ _ _ _ _ Hd Ho)|].
  split; [reflexivity|]. split; [|split; [|split]].
  - eapply (processInfos_getSub_some _ _ _ SubIKS); [exact Ho|].
    rewrite allocateAll_getSub. discriminate.
  - eapply DecodeFile_error_class, Hd.
  - simpl. right. right. left. reflexivity.
  - intros l Hun. simpl.
    rewrite (processInfos_unset _ _ _ _ _ _ l Ho Hun).
    rewrite readLeaf_allocateAll. apply readLeaf_initialConfig.
Qed.

(** C3, amended: with an empty path [ReadConfig] decodes the file at
    [GetDefaultConfPath], the path under GOPATH, and no other; that path is
    the same whatever SECRET_CONFIG_PATH is set to. *)
Theorem ReadConfig_default_path (fs : FileSystem) (env : Env) :
  openedFiles (snd (ReadConfig fs env "")) = [GetDefaultConfPath env]
  /\ ReadConfig fs env "" = ReadConfig fs env (GetDefaultConfPath env)
  /\ forall v,
      GetDefaultConfPath (setenv "SECRET_CONFIG_PATH" v env)
      = GetDefaultConfPath env.
Proof.
  split; [|split].
  - rewrite ReadConfig_result. simpl.
    now rewrite openedFiles_app, !openedFiles_logError.
  - unfold ReadConfig.
    destruct (String.eqb (GetDefaultConfPath env) "") eqn:E.
    + apply String.eqb_eq in E. now rewrite E.
    + reflexivity.
  - intros v. apply GetDefaultConfPath_ignores_secret.
Qed.

(** C4, amended: the overlay runs on the decoded record.  When it
    succeeds, every field for which it finds a variable, under the field's
    key (the section's name, then the tag or, without a tag, the field's
    name) or else under the tag alone, holds the converted value of that
    variable, whatever the file said; every other field, tagged or not,
    holds what the file gave it, or zero. *)
Theorem overlay_after_decode (fs : FileSystem) (env : Env) (p : string) :
  snd (fst (ReadConfig fs env p)) = None ->
  let decoded := fst (DecodeFile fs (effectivePath env p) initialConfig) in
  exists conf,
    fst (fst (ReadConfig fs env p)) = Some conf
    /\ conf = fst (Process env decoded)
    /\ forall info,
        In info gatherInfo ->
        match lookupVar env info with
        | Some value =>
            processField ParseInt value (leafKind (viField info))
            = Some (readLeaf (viField info) conf)
        | None =>
            readLeaf (viField info) conf = readLeaf (viField info) decoded
        end.
Proof.
  intros Hok decoded. rewrite ReadConfig_result in Hok |- *.
  cbn [fst snd] in Hok |- *. fold decoded in Hok |- *.
  destruct (Process env decoded) as [c2 e2] eqn:Ho.
  cbn [fst snd] in Hok |- *. subst e2.
  exists c2. split; [reflexivity|]. split; [reflexivity|].
  intros info Hin.
  destruct (lookupVar env info) as [value|] eqn:Hl.
  - destruct (processInfos_set ParseInt env gatherInfo _ c2
                (allocateAll_wellFormed _ (decoded_wellFormed fs _))
                (allocateAll_allocated _)
                gatherInfo_NoDup gatherInfo_inSchema Ho info value Hin Hl)
      as (v & Hp & Hr).
    now rewrite Hp, Hr.
  - rewrite (processInfos_unset _ _ _ _ _ _ (viField info) Ho).
    + apply readLeaf_allocateAll.
    + intros i Hi E.
      assert (i = info) as ->; [|exact Hl].
      clear -Hi Hin E. revert i info Hi Hin E.
      pose proof gatherInfo_NoDup as Hnd.
      induction gatherInfo as [|a l IH]; simpl in *; [easy|].
      inversion Hnd as [|? ? Hna Hnd']; subst.
      intros i info [->|Hi] [->|Hin] E; auto.
      * destruct Hna. rewrite E. now apply in_map.
      * destruct Hna. rewrite <- E. now apply in_map.
Qed.


(** C9, amended: when the path names no file and the overlay finds no
    variable for any field, neither under a field's key nor under its tag,
    [ReadConfig] returns no error and a record whose sub-records, IKS among
    them, are all there and all of whose fields are zero. *)
Theorem load_without_file_and_variables (fs : FileSystem) (env : Env)
        (p : string) :
  fs (effectivePath env p) = NoSuchFile ->
  (forall info, In info gatherInfo -> lookupVar env info = None) ->
  exists conf events,
    ReadConfig fs env p = (Some conf, None, events)
    /\ conf = allocateAll initialConfig
    /\ IKS conf <> None
    /\ forall l, readLeaf l conf = zeroValue (leafKind l).
Proof.
  intros Hfile Hun.
  destruct (DecodeFile_no_document fs _ initialConfig (or_introl Hfile))
    as [ed Hd].
  pose proof (processInfos_all_unset ParseInt env gatherInfo
                (allocateAll initialConfig) Hun) as Ho.
  exists (allocateAll initialConfig). eexists.
  split; [apply (ReadConfig_steps _ _ _ _ _ _ _ _ Hd Ho)|].
  split; [reflexivity|]. split; [discriminate|].
  intros l. rewrite readLeaf_allocateAll. apply readLeaf_initialConfig.
Qed.

End Loader.

(* ================================================================== *)
(** ** The loader on concrete files and environments *)

Module Run.

Import Samples.

Local Abbreviation ParseInt := Decimal.ParseInt.

(** An example: the file says [debug_trace = false], the
    environment DEBUG_TRACE=true, and the loaded flag is true. *)
Example debug_trace_environment_wins :
  readLeaf Server_DebugTrace
           (fst (DecodeFile (oneFile "libconfig.toml" traceOff)
                            "libconfig.toml" initialConfig))
  = VBool false
  /\ option_map (readLeaf Server_DebugTrace)
       (fst (fst (ReadConfig ParseInt (oneFile "libconfig.toml" traceOff)
                             envTraceOn "libconfig.toml")))
     = Some (VBool true).
Proof. split; vm_compute; reflexivity. Qed.

(** The key of a field comes before its tag: with SERVER_DEBUG_TRACE set,
    DEBUG_TRACE is not looked at. *)
Example debug_trace_key_before_tag :
  option_map (readLeaf Server_DebugTrace)
    (fst (fst (ReadConfig ParseInt (oneFile "libconfig.toml" traceOff)
                 (setenv "SERVER_DEBUG_TRACE" "false" envTraceOn)
                 "libconfig.toml")))
  = Some (VBool false).
Proof. vm_compute; reflexivity. Qed.

(** C1, as stated, fails: with no file at the path and DEBUG_TRACE=maybe
    both steps fail, and the error returned is the overlay's, not the
    decoder's. *)
Lemma decode_error_not_returned :
  DecodeFile noFiles "libconfig.toml" initialConfig
  = (initialConfig, Some (PathError "open" "libconfig.toml"))
  /\ snd (Process ParseInt envTraceBad initialConfig)
     = Some (EnvParseError "SERVER_DEBUG_TRACE" "DebugTrace" "bool" "maybe")
  /\ snd (fst (ParseConfig ParseInt noFiles envTraceBad "libconfig.toml"
                           initialConfig))
     = Some (EnvParseError "SERVER_DEBUG_TRACE" "DebugTrace" "bool" "maybe")
  /\ snd (fst (ReadConfig ParseInt noFiles envTraceBad "libconfig.toml"))
     = Some (EnvParseError "SERVER_DEBUG_TRACE" "DebugTrace" "bool" "maybe")
  /\ snd (fst (ReadConfig ParseInt noFiles envTraceBad "libconfig.toml"))
     <> Some (PathError "open" "libconfig.toml").
Proof.
  repeat split; try (vm_compute; reflexivity).
  vm_compute. discriminate.
Qed.

Lemma load_returns_overlay_error_witness :
  DecodeFile noFiles "libconfig.toml" initialConfig
  = (initialConfig, Some (PathError "open" "libconfig.toml"))
  /\ Process ParseInt envTraceBad initialConfig
     = (allocateAll initialConfig,
        Some (EnvParseError "SERVER_DEBUG_TRACE" "DebugTrace" "bool" "maybe"))
  /\ exists events,
      ParseConfig ParseInt noFiles envTraceBad "libconfig.toml" initialConfig
      = (allocateAll initialConfig,
         Some (EnvParseError "SERVER_DEBUG_TRACE" "DebugTrace" "bool" "maybe"),
         events)
      /\ isDecodeError (PathError "open" "libconfig.toml") = true
      /\ isOverlayError
           (EnvParseError "SERVER_DEBUG_TRACE" "DebugTrace" "bool" "maybe")
         = true
      /\ EnvParseError "SERVER_DEBUG_TRACE" "DebugTrace" "bool" "maybe"
         <> PathError "open" "libconfig.toml"
      /\ In (Logged ErrorLevel "Failed to parse config file"
                    (ZapError (PathError "open" "libconfig.toml")))
            events
      /\ snd (fst (ReadConfig ParseInt noFiles envTraceBad "libconfig.toml"))
         = snd (fst (ParseConfig ParseInt noFiles envTraceBad
                       (effectivePath envTraceBad "libconfig.toml")
                       initialConfig)).
Proof.
  split; [reflexivity|]. split; [vm_compute; reflexivity|].
  apply (load_returns_overlay_error ParseInt noFiles envTraceBad
           "libconfig.toml" initialConfig initialConfig
           (allocateAll initialConfig)
           (PathError "open" "libconfig.toml")
           (EnvParseError "SERVER_DEBUG_TRACE" "DebugTrace" "bool" "maybe"));
    [reflexivity | vm_compute; reflexivity].
Defined.

(** C2, as stated, fails: with no file at the path and no variable set,
    [ReadConfig] returns no error at all; and with DEBUG_TRACE=true it
    returns a record whose flag is set, not zero. *)
Lemma missing_file_no_error :
  noFiles (effectivePath emptyEnv "missing.toml") = NoSuchFile
  /\ snd (fst (ReadConfig ParseInt noFiles emptyEnv "missing.toml")) = None
  /\ snd (fst (ReadConfig ParseInt noFiles envTraceOn "missing.toml")) = None
  /\ option_map (readLeaf Server_DebugTrace)
       (fst (fst (ReadConfig ParseInt noFiles envTraceOn "missing.toml")))
     = Some (VBool true).
Proof. repeat split; vm_compute; reflexivity. Qed.

Lemma load_without_document_witness :
  (noFiles (effectivePath envTraceOn "missing.toml") = NoSuchFile
   \/ noFiles (effectivePath envTraceOn "missing.toml") = Unreadable
   \/ noFiles (effectivePath envTraceOn "missing.toml") = Garbled)
  /\ exists conf ed events,
      ReadConfig ParseInt noFiles envTraceOn "missing.toml"
      = (Some conf, snd (Process ParseInt envTraceOn initialConfig), events)
      /\ conf = fst (Process ParseInt envTraceOn initialConfig)
      /\ IKS conf <> None
      /\ isDecodeError ed = true
      /\ In (Logged ErrorLevel "Failed to parse config file" (ZapError ed))
            events
      /\ forall l,
          (forall info, In info gatherInfo -> viField info = l ->
                        lookupVar envTraceOn info = None) ->
          readLeaf l conf = zeroValue (leafKind l).
Proof.
  split; [left; reflexivity|].
  apply (load_without_document ParseInt noFiles envTraceOn "missing.toml").
  left. reflexivity.
Defined.

(** C3, as stated, fails: with SECRET_CONFIG_PATH=/tmp/cfg and a file at
    /tmp/cfg/libconfig.toml that turns the trace on, [ReadConfig] with an
    empty path opens the default path under GOPATH, not that file, and
    the trace stays off. *)
Lemma secret_dir_not_consulted :
  envSecret "SECRET_CONFIG_PATH" = Some "/tmp/cfg"
  /\ Filepath.Join ["/tmp/cfg"; "libconfig.toml"] = "/tmp/cfg/libconfig.toml"
  /\ openedFiles
       (snd (ReadConfig ParseInt (oneFile "/tmp/cfg/libconfig.toml" traceOn)
                        envSecret ""))
     = [defaultPath]
  /\ defaultPath <> "/tmp/cfg/libconfig.toml"
  /\ option_map (readLeaf Server_DebugTrace)
       (fst (fst (ReadConfig ParseInt
                    (oneFile "/tmp/cfg/libconfig.toml" traceOn)
                    envSecret "")))
     = Some (VBool false)
  /\ option_map (readLeaf Server_DebugTrace)
       (fst (fst (ReadConfig ParseInt
                    (oneFile "/tmp/cfg/libconfig.toml" traceOn)
                    envSecret "/tmp/cfg/libconfig.toml")))
     = Some (VBool true).
Proof.
  repeat split; try (vm_compute; reflexivity).
  vm_compute. discriminate.
Qed.

(** C4, as stated, fails: [IamURL] carries no [envconfig] tag, the file
    sets it, and yet with BLUEMIX_IAMURL set the loaded field holds the
    variable's value, not the file's. *)
Lemma untagged_field_overridden :
  option_map TagEnvconfig
    (nth_error (subType (fst Bluemix_IamURL)) (snd Bluemix_IamURL))
  = Some ""
  /\ readLeaf Bluemix_IamURL
       (fst (DecodeFile (oneFile "libconfig.toml" iamFromFile)
                        "libconfig.toml" initialConfig))
     = VString "https://iam.file"
  /\ ReadConfig ParseInt (oneFile "libconfig.toml" iamFromFile) envIamURL
                "libconfig.toml"
     = (Some (writeLeaf Bluemix_IamURL (VString "https://iam.env")
                (allocateAll initialConfig)),
        None,
        [Logged InfoLevel "parsing conf file"
                (ZapString "confpath" "libconfig.toml");
         Opened "libconfig.toml"])
  /\ readLeaf Bluemix_IamURL
       (writeLeaf Bluemix_IamURL (VString "https://iam.env")
          (allocateAll initialConfig))
     <> VString "https://iam.file".
Proof.
  repeat split; try (vm_compute; reflexivity).
  vm_compute. discriminate.
Qed.

Lemma overlay_after_decode_witness :
  snd (fst (ReadConfig ParseInt (oneFile "libconfig.toml" traceOff)
                       envTraceOn "libconfig.toml")) = None
  /\ exists conf,
      fst (fst (ReadConfig ParseInt (oneFile "libconfig.toml" traceOff)
                           envTraceOn "libconfig.toml")) = Some conf
      /\ conf = fst (Process ParseInt envTraceOn
                       (fst (DecodeFile (oneFile "libconfig.toml" traceOff)
                               (effectivePath envTraceOn "libconfig.toml")
                               initialConfig)))
      /\ forall info,
          In info gatherInfo ->
          match lookupVar envTraceOn info with
          | Some value =>
              processField ParseInt value (leafKind (viField info))
              = Some (readLeaf (viField info) conf)
          | None =>
              readLeaf (viField info) conf
              = readLeaf (viField info)
                  (fst (DecodeFile (oneFile "libconfig.toml" traceOff)
                          (effectivePath envTraceOn "libconfig.toml")
                          initialConfig))
          end.
Proof.
  split; [vm_compute; reflexivity|].
  apply (overlay_after_decode ParseInt (oneFile "libconfig.toml" traceOff)
           envTraceOn "libconfig.toml").
  vm_compute; reflexivity.
Defined.


(** An example: the file gives VPC generation 2, a key and two
    flags, the environment VPC_API_GENERATION=notanumber; the load fails
    with the overlay's error and every field reads as the file gave it. *)
Example generation_not_a_number :
  snd (fst (ReadConfig ParseInt (oneFile "libconfig.toml" vpcFile)
                       envGenerationBad "libconfig.toml"))
  = Some (EnvParseError "VPC_VPC_API_GENERATION" "VPCAPIGeneration"
                        "int" "notanumber")
  /\ fst (fst (ReadConfig ParseInt (oneFile "libconfig.toml" vpcFile)
                          envGenerationBad "libconfig.toml"))
     = Some (allocateAll (fst (unifyConfig vpcFile initialConfig)))
  /\ readLeaf VPC_VPCAPIGeneration (fst (unifyConfig vpcFile initialConfig))
     = VInt 2
  /\ readLeaf VPC_Enabled (fst (unifyConfig vpcFile initialConfig))
     = VBool true.
Proof. repeat split; vm_compute; reflexivity. Qed.

(** C9, as stated, fails: no file, no variable of any [envconfig] tag
    set, and yet with BLUEMIX_IAMURL set, the key of the untagged field
    [IamURL], the loaded record is not all zero. *)
Lemma untagged_variable_fills_field :
  noFiles (effectivePath envIamURL "") = NoSuchFile
  /\ taggedVariablesUnset envIamURL
  /\ option_map (readLeaf Bluemix_IamURL)
       (fst (fst (ReadConfig ParseInt noFiles envIamURL "")))
     = Some (VString "https://iam.env")
  /\ VString "https://iam.env" <> zeroValue (leafKind Bluemix_IamURL).
Proof.
  split; [reflexivity|]. split; [|split].
  - intros x f Hin Htag.
    destruct x; simpl in Hin;
      repeat (destruct Hin as [<-|Hin];
              [simpl in Htag |- *; try congruence; reflexivity|]);
      destruct Hin.
  - vm_compute; reflexivity.
  - vm_compute. discriminate.
Qed.

Lemma load_without_file_and_variables_witness :
  noFiles (effectivePath emptyEnv "") = NoSuchFile
  /\ (forall info, In info gatherInfo -> lookupVar emptyEnv info = None)
  /\ exists conf events,
      ReadConfig ParseInt noFiles emptyEnv "" = (Some conf, None, events)
      /\ conf = allocateAll initialConfig
      /\ IKS conf <> None
      /\ forall l, readLeaf l conf = zeroValue (leafKind l).
Proof.
  assert (forall info, In info gatherInfo -> lookupVar emptyEnv info = None)
    as Hun.
  { intros info _. unfold lookupVar, emptyEnv.
    destruct (negb (String.eqb (viAlt info) "")); reflexivity. }
  split; [reflexivity|]. split; [exact Hun|].
  apply (load_without_file_and_variables ParseInt noFiles emptyEnv "");
    [reflexivity | exact Hun].
Defined.

End Run.

(* ================================================================== *)
(** ** More on the paths *)





Lemma GetConfPath_in_GetConfPathDir_aux (env : Env) :
  GetConfPath env = Filepath.Join [GetConfPathDir env; "libconfig.toml"].
Proof.
  unfold GetConfPath, GetConfPathDir, GetDefaultConfPath.
  destruct (negb (String.eqb (getEnv env "SECRET_CONFIG_PATH") ""));
    reflexivity.
Qed.

(** X1: the configuration file is [libconfig.toml] in the configuration
    directory: [GetConfPath] is [GetConfPathDir] joined with the file name,
    whether the directory comes from SECRET_CONFIG_PATH or from GOPATH. *)
Theorem GetConfPath_in_GetConfPathDir (env : Env) :
  GetConfPath env = Filepath.Join [GetConfPathDir env; "libconfig.toml"].
Proof.
  unfold GetConfPath, GetConfPathDir, GetDefaultConfPath.
  destruct (negb (String.eqb (getEnv env "SECRET_CONFIG_PATH") ""));
    reflexivity.
Qed.

(** X2: SECRET_CONFIG_PATH unset and SECRET_CONFIG_PATH set to the empty
    string are the same to the resolution: [GetConfPath] is then
    [GetDefaultConfPath] and [GetConfPathDir] is [GetEtcPath]. *)
Theorem secret_dir_unset_or_empty (env : Env) :
  env "SECRET_CONFIG_PATH" = None \/ env "SECRET_CONFIG_PATH" = Some "" ->
  GetConfPath env = GetDefaultConfPath env
  /\ GetConfPathDir env = GetEtcPath env.
Proof.
  intros H. unfold GetConfPath, GetConfPathDir, getEnv, Getenv.
  change (Strings.ToUpper "SECRET_CONFIG_PATH") with "SECRET_CONFIG_PATH".
  destruct H as [-> | ->]; split; reflexivity.
Qed.

Lemma secret_dir_unset_or_empty_witness :
  (setenv "SECRET_CONFIG_PATH" "" (setenv "GOPATH" "/go" emptyEnv)
          "SECRET_CONFIG_PATH" = None
   \/ setenv "SECRET_CONFIG_PATH" "" (setenv "GOPATH" "/go" emptyEnv)
             "SECRET_CONFIG_PATH" = Some "")
  /\ GetConfPath (setenv "SECRET_CONFIG_PATH" ""
                         (setenv "GOPATH" "/go" emptyEnv))
     = GetDefaultConfPath (setenv "SECRET_CONFIG_PATH" ""
                                  (setenv "GOPATH" "/go" emptyEnv))
  /\ GetConfPathDir (setenv "SECRET_CONFIG_PATH" ""
                            (setenv "GOPATH" "/go" emptyEnv))
     = GetEtcPath (setenv "SECRET_CONFIG_PATH" ""
                          (setenv "GOPATH" "/go" emptyEnv)).
Proof.
  split; [right; reflexivity|].
  apply (secret_dir_unset_or_empty
           (setenv "SECRET_CONFIG_PATH" "" (setenv "GOPATH" "/go" emptyEnv))).
  right. reflexivity.
Defined.

(** X3: with SECRET_CONFIG_PATH set to a non-empty directory, whatever
    GOPATH is, [GetConfPathDir] returns the directory as it is written and
    [GetConfPath] the cleaned path of [libconfig.toml] in it. *)
Theorem secret_dir_set (env : Env) (dir : string) :
  env "SECRET_CONFIG_PATH" = Some dir -> dir <> "" ->
  GetConfPathDir env = dir
  /\ GetConfPath env = Filepath.Clean (dir ++ "/libconfig.toml").
Proof.
  intros H Hne. unfold GetConfPath, GetConfPathDir, getEnv, Getenv.
  change (Strings.ToUpper "SECRET_CONFIG_PATH") with "SECRET_CONFIG_PATH".
  rewrite H. apply String.eqb_neq in Hne. rewrite Hne. simpl.
  rewrite Hne. split; reflexivity.
Qed.

Lemma secret_dir_set_witness :
  setenv "SECRET_CONFIG_PATH" "/run/secrets/../cfg/" emptyEnv
         "SECRET_CONFIG_PATH" = Some "/run/secrets/../cfg/"
  /\ "/run/secrets/../cfg/" <> ""
  /\ GetConfPathDir (setenv "SECRET_CONFIG_PATH" "/run/secrets/../cfg/"
                            emptyEnv)
     = "/run/secrets/../cfg/"
  /\ GetConfPath (setenv "SECRET_CONFIG_PATH" "/run/secrets/../cfg/" emptyEnv)
     = Filepath.Clean ("/run/secrets/../cfg/" ++ "/libconfig.toml").
Proof.
  split; [reflexivity|]. split; [discriminate|].
  apply (secret_dir_set
           (setenv "SECRET_CONFIG_PATH" "/run/secrets/../cfg/" emptyEnv)
           "/run/secrets/../cfg/"); [reflexivity | discriminate].
Defined.

(* ================================================================== *)
(** ** What [Clean] keeps of a path *)

Lemma string_of_list_ascii_nonempty (l : list ascii) :
  l <> [] -> string_of_list_ascii l <> "".
Proof. destruct l; [congruence | discriminate]. Qed.

Lemma Clean_nonempty (path : string) : Filepath.Clean path <> "".
Proof.
  unfold Filepath.Clean.
  destruct (list_ascii_of_string path) as [|c r]; [discriminate|].
  destruct (if Filepath.isSep c
            then Filepath.cleanLoop (length (c :: r)) true r
                                    [Filepath.Separator] 1
            else Filepath.cleanLoop (length (c :: r)) false (c :: r) [] 0)
    as [|a out]; [discriminate|].
  apply string_of_list_ascii_nonempty.
  simpl. intros E. apply app_eq_nil in E as [_ E]. discriminate.
Qed.

Lemma Join_nonempty (elem : list string) :
  (exists e, In e elem /\ e <> "") -> Filepath.Join elem <> "".
Proof.
  induction elem as [|e rest IH]; intros (x & Hin & Hne); [easy|].
  simpl. destruct (String.eqb e "") eqn:E.
  - apply IH. exists x. split; [|exact Hne].
    destruct Hin as [->|Hin]; [|exact Hin].
    apply String.eqb_eq in E. congruence.
  - apply Clean_nonempty.
Qed.

(** The byte a cleaned path starts with is the oldest of the buffer. *)
Lemma last_cons_nonempty (c d : ascii) (l : list ascii) :
  l <> [] -> last (c :: l) d = last l d.
Proof. destruct l; [congruence | reflexivity]. Qed.

Lemma last_app_nonempty (a b : list ascii) (d : ascii) :
  b <> [] -> last (a ++ b) d = last b d.
Proof.
  intros Hb. induction a as [|x a IH]; [reflexivity|].
  simpl app. rewrite last_cons_nonempty; [exact IH|].
  intros E. apply app_eq_nil in E as [_ E]. congruence.
Qed.

Lemma backtrack_last_or_nil (buf : list ascii) (dotdot : nat) (d : ascii) :
  Filepath.backtrack buf dotdot = []
  \/ last (Filepath.backtrack buf dotdot) d = last buf d.
Proof.
  induction buf as [|c buf IH]; [now left|].
  simpl Filepath.backtrack.
  destruct buf as [|c' buf'].
  - left. simpl. destruct (negb (Filepath.isSep c)); reflexivity.
  - rewrite (last_cons_nonempty c d (c' :: buf')) by discriminate.
    destruct ((dotdot <? length (c' :: buf'))%nat && negb (Filepath.isSep c)).
    + exact IH.
    + now right.
Qed.

Lemma backtrack_length (buf : list ascii) (dotdot : nat) :
  dotdot < length buf -> dotdot <= length (Filepath.backtrack buf dotdot).
Proof.
  induction buf as [|c buf IH]; simpl; [lia|]. intros H.
  destruct (dotdot <? length buf)%nat eqn:E.
  - apply Nat.ltb_lt in E. simpl.
    destruct (negb (Filepath.isSep c)); [now apply IH | lia].
  - apply Nat.ltb_ge in E. simpl. lia.
Qed.

Lemma element_head (c : ascii) (r : list ascii) :
  Filepath.isSep c = false ->
  exists e, fst (Filepath.element (c :: r)) = c :: e.
Proof.
  intros H. simpl. rewrite H.
  destruct (Filepath.element r) as [e rest]. now exists e.
Qed.

(** The loop of [Clean] keeps the first byte of the buffer a separator
    for a rooted path, and never makes it one for a path that is not. *)
Lemma cleanLoop_rooted (fuel : nat) (rooted : bool) :
  forall path buf dotdot,
    Filepath.isSep (last buf "."%char) = rooted ->
    (rooted = true -> 1 <= dotdot) ->
    Filepath.isSep
      (last (Filepath.cleanLoop fuel rooted path buf dotdot) "."%char)
    = rooted.
Proof.
  induction fuel as [|fuel IH]; intros path buf dotdot Hinv Hdd;
    [exact Hinv|].
  destruct path as [|c r1]; [exact Hinv|].
  cbn [Filepath.cleanLoop].
  destruct (Filepath.isSep c) eqn:Hsep; [now apply IH|].
  destruct (Filepath.isDot c && Filepath.atBoundary r1); [now apply IH|].
  destruct (Filepath.isDot c &&
            match r1 with
            | [] => false
            | d :: r2 => Filepath.isDot d && Filepath.atBoundary r2
            end).
  - destruct (dotdot <? length buf)%nat eqn:Hlt.
    + apply Nat.ltb_lt in Hlt. apply IH; [|exact Hdd].
      destruct rooted.
      * pose proof (backtrack_length buf dotdot Hlt) as Hlen.
        specialize (Hdd eq_refl).
        destruct (backtrack_last_or_nil buf dotdot "."%char) as [E|E].
        -- rewrite E in Hlen. simpl in Hlen. lia.
        -- now rewrite E.
      * destruct (backtrack_last_or_nil buf dotdot "."%char) as [E|E].
        -- now rewrite E.
        -- now rewrite E.
    + destruct rooted; cbn [negb]; [now apply IH|].
      apply IH; [|discriminate].
      destruct buf as [|b buf]; [reflexivity|].
      change (Filepath.isSep
                (last (["."%char; "."%char; Filepath.Separator] ++ b :: buf)
                      "."%char) = false).
      rewrite last_app_nonempty by discriminate. exact Hinv.
  - destruct (element_head c r1 Hsep) as [e He].
    destruct (Filepath.element (c :: r1)) as [e' rest]. simpl in He.
    subst e'. apply IH; [|exact Hdd].
    destruct buf as [|b buf].
    + destruct rooted; [discriminate Hinv|].
      cbn. rewrite app_nil_r.
      rewrite last_app_nonempty by discriminate. exact Hsep.
    + assert (forall pre, last (pre ++ b :: buf) "."%char
                          = last (b :: buf) "."%char) as Hkeep
        by (intros; apply last_app_nonempty; discriminate).
      destruct ((rooted && negb (length (b :: buf) =? 1)%nat)
                || (negb rooted && negb (length (b :: buf) =? 0)%nat)).
      * change (rev (c :: e) ++ Filepath.Separator :: b :: buf)
          with (rev (c :: e) ++ [Filepath.Separator] ++ b :: buf).
        rewrite app_assoc, Hkeep. exact Hinv.
      * rewrite Hkeep. exact Hinv.
Qed.

Lemma IsAbs_of_rev (out : list ascii) :
  out <> [] ->
  IsAbs (string_of_list_ascii (rev out)) = Filepath.isSep (last out "."%char).
Proof.
  induction out as [|a out IH]; [congruence|]. intros _.
  destruct out as [|b out]; [reflexivity|].
  rewrite last_cons_nonempty by discriminate.
  rewrite <- IH by discriminate.
  simpl rev. destruct (rev out ++ [b]) eqn:E.
  - apply app_eq_nil in E as [_ E]. discriminate.
  - reflexivity.
Qed.

(** [Clean] keeps a path absolute or relative as it was. *)
Lemma Clean_IsAbs (path : string) :
  IsAbs (Filepath.Clean path) = IsAbs path.
Proof.
  unfold Filepath.Clean.
  destruct path as [|c r]; [reflexivity|].
  simpl list_ascii_of_string. cbn [IsAbs].
  set (n := length (c :: list_ascii_of_string r)).
  assert (Filepath.isSep
            (last (if Filepath.isSep c
                   then Filepath.cleanLoop n true (list_ascii_of_string r)
                                           [Filepath.Separator] 1
                   else Filepath.cleanLoop n false
                          (c :: list_ascii_of_string r) [] 0) "."%char)
          = Filepath.isSep c) as H.
  { destruct (Filepath.isSep c) eqn:Hc.
    - apply cleanLoop_rooted; [reflexivity | lia].
    - apply cleanLoop_rooted; [reflexivity | discriminate]. }
  destruct (if Filepath.isSep c
            then Filepath.cleanLoop n true (list_ascii_of_string r)
                                    [Filepath.Separator] 1
            else Filepath.cleanLoop n false
                   (c :: list_ascii_of_string r) [] 0) as [|a out].
  - simpl in H. rewrite <- H. reflexivity.
  - rewrite IsAbs_of_rev by discriminate. exact H.
Qed.

Lemma IsAbs_append (a b : string) : a <> "" -> IsAbs (a ++ b) = IsAbs a.
Proof. destruct a; [congruence | reflexivity]. Qed.

Lemma GetEtcPath_nonempty (env : Env) : GetEtcPath env <> "".
Proof.
  unfold GetEtcPath. apply Join_nonempty.
  exists "etc". split; [simpl; auto | discriminate].
Qed.

Lemma GetDefaultConfPath_nonempty (env : Env) : GetDefaultConfPath env <> "".
Proof.
  unfold GetDefaultConfPath. apply Join_nonempty.
  exists "libconfig.toml". split; [simpl; auto | discriminate].
Qed.

(** X5: in no environment is a resolved path empty: [GetEtcPath],
    [GetDefaultConfPath], [GetConfPath] and [GetConfPathDir] return a
    non-empty path, also when GOPATH and SECRET_CONFIG_PATH are unset. *)
Theorem resolved_paths_nonempty (env : Env) :
  GetEtcPath env <> ""
  /\ GetDefaultConfPath env <> ""
  /\ GetConfPath env <> ""
  /\ GetConfPathDir env <> "".
Proof.
  split; [apply GetEtcPath_nonempty|].
  split; [apply GetDefaultConfPath_nonempty|].
  split.
  - rewrite GetConfPath_in_GetConfPathDir_aux. apply Join_nonempty.
    exists "libconfig.toml". split; [simpl; auto | discriminate].
  - unfold GetConfPathDir.
    destruct (String.eqb (getEnv env "SECRET_CONFIG_PATH") "") eqn:E; simpl.
    + apply GetEtcPath_nonempty.
    + now apply String.eqb_neq.
Qed.

(** X6: with GOPATH set to a non-empty root, the default directory and the
    default file path are absolute exactly when the root is: a relative
    GOPATH gives paths relative to the working directory. *)
Theorem default_paths_absolute_as_GOPATH (env : Env) (root : string) :
  env "GOPATH" = Some root -> root <> "" ->
  IsAbs (GetEtcPath env) = IsAbs root
  /\ IsAbs (GetDefaultConfPath env) = IsAbs root.
Proof.
  intros H Hne.
  assert (GetGoPath env = root) as Hgo.
  { unfold GetGoPath, getEnv, Getenv.
    change (Strings.ToUpper "GOPATH") with "GOPATH". rewrite H.
    apply String.eqb_neq in Hne. now rewrite Hne. }
  assert (IsAbs (GetEtcPath env) = IsAbs root) as Hetc.
  { unfold GetEtcPath. rewrite Hgo.
    cbn [Filepath.Join]. apply String.eqb_neq in Hne. rewrite Hne.
    rewrite Clean_IsAbs. cbn [Strings.Join].
    apply IsAbs_append. now apply String.eqb_neq. }
  split; [exact Hetc|].
  unfold GetDefaultConfPath. cbn [Filepath.Join].
  pose proof (GetEtcPath_nonempty env) as Hn.
  apply String.eqb_neq in Hn. rewrite Hn.
  rewrite Clean_IsAbs. cbn [Strings.Join].
  rewrite IsAbs_append by now apply String.eqb_neq.
  exact Hetc.
Qed.

Lemma default_paths_absolute_as_GOPATH_witness :
  setenv "GOPATH" "work/go" emptyEnv "GOPATH" = Some "work/go"
  /\ "work/go" <> ""
  /\ IsAbs (GetEtcPath (setenv "GOPATH" "work/go" emptyEnv))
     = IsAbs "work/go"
  /\ IsAbs (GetDefaultConfPath (setenv "GOPATH" "work/go" emptyEnv))
     = IsAbs "work/go".
Proof.
  split; [reflexivity|]. split; [discriminate|].
  apply (default_paths_absolute_as_GOPATH
           (setenv "GOPATH" "work/go" emptyEnv) "work/go");
    [reflexivity | discriminate].
Defined.

(* ================================================================== *)
(** ** More on the overlay loop *)

Lemma distinctNames_NoDup (names : list string) :
  distinctNames names = true -> NoDup names.
Proof.
  induction names as [|n r IH]; simpl; intros H; constructor.
  - apply andb_true_iff in H as [H _].
    intros Hin. apply negb_true_iff in H.
    assert (existsb (String.eqb n) r = true) as E; [|congruence].
    apply existsb_exists. exists n. split; [exact Hin | apply String.eqb_refl].
  - apply IH. now apply andb_true_iff in H as [_ H].
Qed.

Lemma NoDup_app_disjoint {A : Type} (a b : list A) (x : A) :
  NoDup (a ++ b) -> In x a -> In x b -> False.
Proof.
  induction a as [|y a IH]; simpl; intros Hnd Ha Hb; [easy|].
  inversion Hnd as [|? ? Hnot Hnd']; subst.
  destruct Ha as [->|Ha]; [|now apply IH].
  apply Hnot, in_or_app. now right.
Qed.

Lemma NoDup_flat_map_unique {A B : Type} (f : A -> list B) (l : list A) :
  NoDup (flat_map f l) ->
  forall a b x, In a l -> In b l -> In x (f a) -> In x (f b) ->
                (forall y, In y l -> f y <> []) -> NoDup l -> a = b.
Proof.
  induction l as [|h l IH]; simpl; intros Hnd a b x Ha Hb Hxa Hxb Hne Hl;
    [easy|].
  inversion Hl as [|? ? Hh Hl']; subst.
  assert (forall z, In z l -> In x (f z) -> In x (flat_map f l)) as Hin
    by (intros z Hz Hx; apply in_flat_map; eauto).
  destruct Ha as [->|Ha], Hb as [->|Hb]; auto.
  - destruct (NoDup_app_disjoint _ _ x Hnd Hxa (Hin b Hb Hxb)).
  - destruct (NoDup_app_disjoint _ _ x Hnd Hxb (Hin a Ha Hxa)).
  - apply (IH (NoDup_app_remove_l _ _ Hnd) a b x); auto.
Qed.

(** No two fields look up a variable of the same name, and no field has
    its tag for key. *)
Lemma consultedNames_NoDup : NoDup (flat_map consultedNames gatherInfo).
Proof. apply distinctNames_NoDup. vm_compute. reflexivity. Qed.

Lemma gatherInfo_entries_NoDup : NoDup gatherInfo.
Proof.
  apply (NoDup_map_inv viField). apply gatherInfo_NoDup.
Qed.

Lemma consultedNames_unique (i j : varInfo) (name : string) :
  In i gatherInfo -> In j gatherInfo ->
  In name (consultedNames i) -> In name (consultedNames j) -> i = j.
Proof.
  intros Hi Hj Hni Hnj.
  apply (NoDup_flat_map_unique consultedNames gatherInfo
           consultedNames_NoDup i j name); auto.
  - intros y _. unfold consultedNames. discriminate.
  - apply gatherInfo_entries_NoDup.
Qed.

Lemma consultedNames_key_not_tag (i : varInfo) :
  In i gatherInfo -> viAlt i <> "" -> viKey i <> viAlt i.
Proof.
  intros Hi Halt E.
  assert (NoDup (consultedNames i)) as Hnd.
  { pose proof consultedNames_NoDup as H. revert Hi H.
    induction gatherInfo as [|h l IH]; [easy|]. cbn [flat_map In].
    intros [->|Hi] H.
    - now apply NoDup_app_remove_r in H.
    - apply IH; [exact Hi | now apply NoDup_app_remove_l in H]. }
  unfold consultedNames in Hnd.
  apply String.eqb_neq in Halt. rewrite Halt in Hnd.
  inversion Hnd as [|? ? Hnot _]; subst. apply Hnot. now left.
Qed.

Section MoreOverlayFacts.

Variable ParseInt : string -> option Z.

Local Abbreviation processInfos := (processInfos ParseInt).
Local Abbreviation Process := (Process ParseInt).
Local Abbreviation ReadConfig := (ReadConfig ParseInt).

(** The loop ends without error when every variable it finds converts. *)
Lemma processInfos_ok (env : Env) (infos : list varInfo) :
  forall c,
    (forall i, In i infos -> convertible ParseInt env i) ->
    snd (processInfos env infos c) = None.
Proof.
  induction infos as [|a infos IH]; simpl; intros c H; [reflexivity|].
  pose proof (H a (or_introl eq_refl)) as Ha. unfold convertible in Ha.
  destruct (lookupVar env a) as [value|]; [|apply IH; auto].
  destruct (processField ParseInt value (leafKind (viField a)));
    [apply IH; auto | congruence].
Qed.

Lemma processInfos_app (env : Env) (a b : list varInfo) :
  forall c,
    processInfos env (a ++ b) c
    = match processInfos env a c with
      | (c1, None) => processInfos env b c1
      | (c1, Some e) => (c1, Some e)
      end.
Proof.
  induction a as [|x a IH]; simpl; intros c; [reflexivity|].
  destruct (lookupVar env x) as [value|]; [|apply IH].
  destruct (processField ParseInt value (leafKind (viField x)));
    [apply IH | reflexivity].
Qed.

(** The loop reads the environment through [lookupVar] only. *)
Lemma processInfos_ext (env1 env2 : Env) (infos : list varInfo) :
  forall c,
    (forall i, In i infos -> lookupVar env1 i = lookupVar env2 i) ->
    processInfos env1 infos c = processInfos env2 infos c.
Proof.
  induction infos as [|a infos IH]; simpl; intros c H; [reflexivity|].
  rewrite <- (H a (or_introl eq_refl)).
  destruct (lookupVar env1 a) as [value|]; [|apply IH; auto].
  destruct (processField ParseInt value (leafKind (viField a)));
    [apply IH; auto | reflexivity].
Qed.

End MoreOverlayFacts.

(* ================================================================== *)
(** ** More on the loader *)

Section MoreLoader.

Variable ParseInt : string -> option Z.

Local Abbreviation processInfos := (processInfos ParseInt).
Local Abbreviation Process := (Process ParseInt).
Local Abbreviation ReadConfig := (ReadConfig ParseInt).


(** X8: an error [ReadConfig] returns is never the decoder's: it is the
    error of the overlay run on the record as decoded, a [ParseError]. *)
Theorem ReadConfig_error_is_overlay_error (fs : FileSystem) (env : Env)
        (p : string) (e : Error) :
  snd (fst (ReadConfig fs env p)) = Some e ->
  isOverlayError e = true
  /\ isDecodeError e = false
  /\ snd (Process env
            (fst (DecodeFile fs (effectivePath env p) initialConfig)))
     = Some e.
Proof.
  rewrite ReadConfig_result. cbn [fst snd].
  destruct (Process env
              (fst (DecodeFile fs (effectivePath env p) initialConfig)))
    as [c2 e2] eqn:Ho.
  cbn [fst snd]. intros ->.
  pose proof (processInfos_error_class _ _ _ _ _ _ Ho) as Hc.
  repeat split; auto. destruct e; simpl in *; congruence.
Qed.


(** X9: an error is returned exactly when it has been logged as a failure
    to gather the environment: the log holds the line for [e] if and only
    if [e] is the error returned. *)
Theorem returned_error_is_logged (fs : FileSystem) (env : Env) (p : string)
        (e : Error) :
  snd (fst (ReadConfig fs env p)) = Some e
  <-> In (Logged ErrorLevel "Failed to gather environment config variable"
                 (ZapError e))
         (snd (ReadConfig fs env p)).
Proof.
  rewrite ReadConfig_result. cbn [fst snd].
  destruct (snd (Process env
              (fst (DecodeFile fs (effectivePath env p) initialConfig))))
    as [e2|];
    destruct (snd (DecodeFile fs (effectivePath env p) initialConfig))
      as [e1|]; simpl; split; intros H;
    try (inversion H; subst; clear H); auto 6;
    repeat match goal with
           | H : _ \/ _ |- _ => destruct H as [H|H]
           | H : Logged _ _ _ = Logged _ _ _ |- _ => inversion H; clear H
           | H : Opened _ = Logged _ _ _ |- _ => discriminate H
           | H : False |- _ => destruct H
           end; subst; auto; discriminate.
Qed.

(** X10: a failure of the decoder, whatever its cause (no file, no TOML, a
    value of the wrong type), is logged and not returned, and the overlay
    still runs on the record as far as it was decoded. *)
Theorem decode_failure_logged_not_returned (fs : FileSystem) (env : Env)
        (p : string) (c1 : Config) (ed : Error) :
  DecodeFile fs (effectivePath env p) initialConfig = (c1, Some ed) ->
  In (Logged ErrorLevel "Failed to parse config file" (ZapError ed))
     (snd (ReadConfig fs env p))
  /\ snd (fst (ReadConfig fs env p)) <> Some ed
  /\ fst (ReadConfig fs env p)
     = (Some (fst (Process env c1)), snd (Process env c1)).
Proof.
  intros Hd.
  rewrite (ReadConfig_steps ParseInt fs env p c1 (fst (Process env c1))
             (Some ed) (snd (Process env c1)) Hd (surjective_pairing _)).
  cbn [fst snd]. split; [simpl; auto|]. split; [|reflexivity].
  intros H.
  pose proof (DecodeFile_error_class _ _ _ _ _ Hd) as Hdec.
  destruct (Process env c1) as [c2 e2] eqn:Ho. cbn [snd] in H. subst e2.
  pose proof (processInfos_error_class _ _ _ _ _ _ Ho) as Hov.
  destruct ed; discriminate.
Qed.

(** X11: every sub-record of the record [ReadConfig] returns is there,
    with all the fields of its type, not only IKS: what the file left
    out the overlay allocates. *)
Theorem ReadConfig_all_sub_records (fs : FileSystem) (env : Env)
        (p : string) :
  exists conf,
    fst (fst (ReadConfig fs env p)) = Some conf
    /\ forall x, exists s,
        getSub x conf = Some s /\ length s = length (subType x).
Proof.
  rewrite ReadConfig_result. cbn [fst snd].
  destruct (Process env
              (fst (DecodeFile fs (effectivePath env p) initialConfig)))
    as [c2 e2] eqn:Ho.
  exists c2. split; [reflexivity|]. intros x.
  pose proof (Process_allocated _ _ _ _ _ Ho x) as Hal.
  pose proof (processInfos_wellFormed _ _ _ _ _ _ Ho
                (allocateAll_wellFormed _ (decoded_wellFormed fs _))) as Hwf.
  destruct (getSub x c2) as [s|] eqn:E; [|congruence].
  exists s. split; [reflexivity | now apply Hwf].
Qed.

(** X12: the overlay fails on [bool] and [int] fields only: a returned
    error names a field of one of these kinds and the variable found for
    it; a [string] field takes any value, the empty one too. *)
Theorem overlay_error_names_bool_or_int (fs : FileSystem) (env : Env)
        (p : string) (e : Error) :
  snd (fst (ReadConfig fs env p)) = Some e ->
  exists info value,
    In info gatherInfo
    /\ lookupVar env info = Some value
    /\ e = EnvParseError (viKey info) (viName info)
                         (typeName (leafKind (viField info))) value
    /\ leafKind (viField info) <> KString
    /\ forall s, processField ParseInt s KString = Some (VString s).
Proof.
  rewrite ReadConfig_result. cbn [fst snd].
  destruct (Process env
              (fst (DecodeFile fs (effectivePath env p) initialConfig)))
    as [c2 e2] eqn:Ho.
  cbn [snd]. intros ->.
  destruct (processInfos_failed _ _ _ _ _ _ gatherInfo_NoDup Ho)
    as (info & value & Hi & Hl & Hp & He & _).
  exists info, value. repeat split; auto.
  intros Hk. rewrite Hk in Hp. discriminate.
Qed.

(** X13: the overlay stops at the first variable that does not convert:
    the fields before it hold their converted variables, the fields
    after it hold what the file gave them, whatever their variables. *)
Theorem overlay_stops_at_first_failure (fs : FileSystem) (env : Env)
        (p : string) (pre post : list varInfo) (info : varInfo)
        (value : string) :
  gatherInfo = pre ++ info :: post ->
  (forall i, In i pre -> convertible ParseInt env i) ->
  lookupVar env info = Some value ->
  processField ParseInt value (leafKind (viField info)) = None ->
  let decoded := fst (DecodeFile fs (effectivePath env p) initialConfig) in
  exists conf,
    fst (ReadConfig fs env p)
    = (Some conf,
       Some (EnvParseError (viKey info) (viName info)
                           (typeName (leafKind (viField info))) value))
    /\ (forall i, In i (info :: post) ->
                  readLeaf (viField i) conf = readLeaf (viField i) decoded)
    /\ (forall i s, In i pre -> lookupVar env i = Some s ->
                    processField ParseInt s (leafKind (viField i))
                    = Some (readLeaf (viField i) conf)).
Proof.
  intros Hsplit Hpre Hl Hp decoded.
  rewrite ReadConfig_result. cbn [fst snd]. fold decoded.
  pose proof gatherInfo_NoDup as Hnd.
  pose proof gatherInfo_inSchema as Hsch.
  unfold Process.
  rewrite Hsplit in Hnd, Hsch |- *.
  rewrite processInfos_app.
  pose proof (processInfos_ok ParseInt env pre (allocateAll decoded) Hpre)
    as Hok.
  destruct (processInfos env pre (allocateAll decoded)) as [c1 e1] eqn:Hrun.
  cbn [snd] in Hok. subst e1.
  simpl. rewrite Hl, Hp. cbn [fst snd].
  exists c1. split; [reflexivity|]. split.
  - intros i Hi.
    rewrite (processInfos_unset _ _ _ _ _ _ (viField i) Hrun).
    + apply readLeaf_allocateAll.
    + intros j Hj E. exfalso.
      rewrite map_app in Hnd.
      apply (NoDup_app_disjoint _ _ (viField i) Hnd).
      * rewrite <- E. now apply in_map.
      * now apply (in_map viField (info :: post)).
  - intros i s Hi Hls.
    rewrite map_app in Hnd. apply NoDup_app_remove_r in Hnd.
    destruct (processInfos_set ParseInt env pre _ c1
                (allocateAll_wellFormed _ (decoded_wellFormed fs _))
                (allocateAll_allocated _) Hnd
                (fun j Hj => Hsch j (in_or_app _ _ _ (or_introl Hj)))
                Hrun i s Hi Hls) as (v & Hv & Hr).
    now rewrite Hv, Hr.
Qed.

End MoreLoader.

(* ================================================================== *)
(** ** One variable, one key, one field *)

Lemma findSub_fold (sec : string) (x : Sub) :
  Strings.EqualFold sec (subName x) = true -> findSub sec = Some x.
Proof.
  unfold Strings.EqualFold. intros H. apply String.eqb_eq in H.
  unfold findSub.
  destruct (find (fun y => String.eqb (subName y) sec) allSubs) as [y|] eqn:E.
  - apply find_some in E as [_ E]. apply String.eqb_eq in E. subst sec.
    destruct y, x; try reflexivity; discriminate H.
  - unfold Strings.EqualFold. rewrite H. destruct x; reflexivity.
Qed.

Lemma findField_own (x : Sub) (i : nat) (f : StructField) :
  nth_error (subType x) i = Some f ->
  findField (subType x) (tomlName f) = Some i.
Proof.
  destruct x; cbn [subType];
    do 26 (destruct i as [|i];
           [cbn [nth_error];
            first [discriminate | intros [= <-]; vm_compute; reflexivity]|]);
    destruct i; simpl; discriminate.
Qed.

Lemma varInfo_eq_dec (i j : varInfo) : {i = j} + {i <> j}.
Proof.
  decide equality; try apply string_dec. apply Leaf_eq_dec.
Defined.

Lemma lookupVar_none (env : Env) (info : varInfo) :
  lookupVar env info = None ->
  env (viKey info) = None
  /\ (viAlt info <> "" -> env (viAlt info) = None).
Proof.
  unfold lookupVar. destruct (env (viKey info)); [discriminate|].
  intros H. split; [reflexivity|]. intros Halt.
  apply String.eqb_neq in Halt. now rewrite Halt in H.
Qed.

Section OneField.

Variable ParseInt : string -> option Z.

Local Abbreviation processInfos := (processInfos ParseInt).
Local Abbreviation Process := (Process ParseInt).
Local Abbreviation ReadConfig := (ReadConfig ParseInt).

(** X14: from an environment in which the overlay finds nothing, setting
    one variable a field looks up, its key or its tag, to a value that
    converts makes the load succeed with that field holding the converted
    value and every other field holding what the file gave it. *)
Theorem variable_sets_its_field (fs : FileSystem) (env : Env) (p : string)
        (info : varInfo) (name s : string) (v : Value) :
  In info gatherInfo ->
  In name (consultedNames info) ->
  (forall i, In i gatherInfo -> lookupVar env i = None) ->
  processField ParseInt s (leafKind (viField info)) = Some v ->
  let decoded :=
    fst (DecodeFile fs (effectivePath (setenv name s env) p) initialConfig) in
  exists conf,
    fst (ReadConfig fs (setenv name s env) p) = (Some conf, None)
    /\ readLeaf (viField info) conf = v
    /\ forall l, l <> viField info -> readLeaf l conf = readLeaf l decoded.
Proof.
  intros Hin Hname Hun Hconv decoded.
  set (env' := setenv name s env) in *.
  assert (forall i, In i gatherInfo -> i <> info ->
                    lookupVar env' i = None) as Hothers.
  { intros i Hi Hne.
    destruct (lookupVar_none env i (Hun i Hi)) as [Hk Ha].
    unfold lookupVar, env', setenv.
    destruct (String.eqb (viKey i) name) eqn:Ek.
    - apply String.eqb_eq in Ek. destruct Hne.
      apply (consultedNames_unique i info name Hi Hin); [|exact Hname].
      unfold consultedNames. left. exact Ek.
    - rewrite Hk.
      destruct (String.eqb (viAlt i) "") eqn:Ea; [reflexivity|]. simpl.
      destruct (String.eqb (viAlt i) name) eqn:En.
      + apply String.eqb_eq in En. destruct Hne.
        apply (consultedNames_unique i info name Hi Hin); [|exact Hname].
        unfold consultedNames. rewrite Ea. right. left. exact En.
      + apply Ha. now apply String.eqb_neq. }
  assert (lookupVar env' info = Some s) as Hown.
  { destruct (lookupVar_none env info (Hun info Hin)) as [Hk Ha].
    unfold lookupVar, env', setenv.
    unfold consultedNames in Hname.
    destruct (String.eqb (viAlt info) "") eqn:Ea.
    - destruct Hname as [<-|[]]. now rewrite String.eqb_refl.
    - destruct Hname as [<-|[<-|[]]].
      + now rewrite String.eqb_refl.
      + apply String.eqb_neq in Ea.
        pose proof (consultedNames_key_not_tag info Hin Ea) as Hne.
        apply String.eqb_neq in Hne. rewrite Hne, Hk. simpl.
        now rewrite String.eqb_refl. }
  assert (forall i, In i gatherInfo -> convertible ParseInt env' i) as Hall.
  { intros i Hi. unfold convertible.
    destruct (varInfo_eq_dec i info) as [->|Hne].
    - rewrite Hown, Hconv. discriminate.
    - now rewrite (Hothers i Hi Hne). }
  rewrite ReadConfig_result. cbn [fst snd]. fold decoded.
  pose proof (processInfos_ok ParseInt env' gatherInfo (allocateAll decoded)
                Hall) as Hok.
  change (snd (Process env' decoded) = None) in Hok.
  destruct (Process env' decoded) as [c2 e2] eqn:Ho.
  cbn [snd] in Hok. subst e2.
  cbn [fst snd]. exists c2. split; [reflexivity|]. split.
  - destruct (processInfos_set ParseInt env' gatherInfo _ c2
                (allocateAll_wellFormed _ (decoded_wellFormed fs _))
                (allocateAll_allocated _)
                gatherInfo_NoDup gatherInfo_inSchema Ho info s Hin Hown)
      as (w & Hw & Hr).
    congruence.
  - intros l Hl.
    rewrite (processInfos_unset _ _ _ _ _ _ l Ho).
    + apply readLeaf_allocateAll.
    + intros i Hi E. apply Hothers; [exact Hi|]. intros ->. now apply Hl.
Qed.

(** X15: the load reads GOPATH and the variables the fields look up, and
    no other: two environments that agree on these give the same record,
    the same error and the same trace. *)
Theorem loader_reads_consulted_variables_only (fs : FileSystem)
        (env1 env2 : Env) (p : string) :
  env1 "GOPATH" = env2 "GOPATH" ->
  (forall i name, In i gatherInfo -> In name (consultedNames i) ->
                  env1 name = env2 name) ->
  ReadConfig fs env1 p = ReadConfig fs env2 p.
Proof.
  intros Hgo Hnames.
  assert (effectivePath env1 p = effectivePath env2 p) as Hpath.
  { unfold effectivePath, GetDefaultConfPath, GetEtcPath, GetGoPath,
      getEnv, Getenv.
    change (Strings.ToUpper "GOPATH") with "GOPATH". now rewrite Hgo. }
  assert (forall c, Process env1 c = Process env2 c) as Hproc.
  { intros c. apply processInfos_ext. intros i Hi. unfold lookupVar.
    rewrite (Hnames i (viKey i) Hi) by (unfold consultedNames; now left).
    destruct (env2 (viKey i)); [reflexivity|].
    destruct (String.eqb (viAlt i) "") eqn:Ea; [reflexivity|]. simpl.
    apply (Hnames i (viAlt i) Hi).
    unfold consultedNames. rewrite Ea. right. now left. }
  rewrite !ReadConfig_result. cbv zeta. now rewrite Hpath, Hproc.
Qed.

End OneField.

(** X16: a file with one table and one key sets the field of that key and
    nothing else: the table is found under the name of the sub-record in
    any case of letters, the field under the name of its [toml] tag (its
    own name without a tag), and every other field stays zero. *)
Theorem file_key_sets_its_field (fs : FileSystem) (path sec : string)
        (x : Sub) (i : nat) (f : StructField) (d : TomlValue) (v : Value) :
  nth_error (subType x) i = Some f ->
  Strings.EqualFold sec (subName x) = true ->
  unifyLeaf (FieldKind f) d = Some v ->
  fs path = Toml [(sec, Table [(tomlName f, d)])] ->
  exists conf,
    DecodeFile fs path initialConfig = (conf, None)
    /\ readLeaf (x, i) conf = v
    /\ forall l, l <> (x, i) -> readLeaf l conf = zeroValue (leafKind l).
Proof.
  intros Hnth Hsec Hleaf Hfs.
  assert (i < length (subType x)) as Hlt
    by (apply nth_error_Some; congruence).
  unfold DecodeFile. rewrite Hfs. cbn [unifyConfig].
  rewrite (findSub_fold sec x Hsec). cbn [unifyStruct].
  rewrite (findField_own x i f Hnth).
  assert (kindAt (subType x) i = FieldKind f) as Hk
    by (unfold kindAt; now rewrite Hnth).
  rewrite Hk, Hleaf.
  eexists. split; [reflexivity|]. split.
  - unfold readLeaf. cbn [fst snd]. rewrite getSub_setSub_same.
    apply nth_setField_same.
    now rewrite (indirect_length x _ initialConfig_wellFormed).
  - intros [y j] Hl. unfold readLeaf. cbn [fst snd].
    destruct (Sub_eq_dec x y) as [<-|Hxy].
    + rewrite getSub_setSub_same.
      rewrite nth_setField_other by congruence.
      change (nth j (indirect x initialConfig) (zeroValue (leafKind (x, j))))
        with (nth (snd (x, j)) (indirect (fst (x, j)) initialConfig)
                  (zeroValue (leafKind (x, j)))).
      rewrite readLeaf_indirect. apply readLeaf_initialConfig.
    + rewrite getSub_setSub_other by assumption.
      apply (readLeaf_initialConfig (y, j)).
Qed.

(* ================================================================== *)
(** ** The further properties on concrete files and environments *)

Module MoreRuns.

Import Samples MoreSamples.

Local Abbreviation ParseInt := Decimal.ParseInt.

Lemma ReadConfig_error_is_overlay_error_witness :
  snd (fst (ReadConfig ParseInt noFiles envTraceBad "libconfig.toml"))
  = Some (EnvParseError "SERVER_DEBUG_TRACE" "DebugTrace" "bool" "maybe")
  /\ isOverlayError
       (EnvParseError "SERVER_DEBUG_TRACE" "DebugTrace" "bool" "maybe") = true
  /\ isDecodeError
       (EnvParseError "SERVER_DEBUG_TRACE" "DebugTrace" "bool" "maybe") = false
  /\ snd (Process ParseInt envTraceBad
            (fst (DecodeFile noFiles
                    (effectivePath envTraceBad "libconfig.toml")
                    initialConfig)))
     = Some (EnvParseError "SERVER_DEBUG_TRACE" "DebugTrace" "bool" "maybe").
Proof.
  split; [vm_compute; reflexivity|].
  apply (ReadConfig_error_is_overlay_error ParseInt noFiles envTraceBad
           "libconfig.toml").
  vm_compute; reflexivity.
Defined.

Lemma decode_failure_logged_not_returned_witness :
  DecodeFile (oneFile "libconfig.toml" traceMistyped)
             (effectivePath emptyEnv "libconfig.toml") initialConfig
  = (fst (unifyConfig traceMistyped initialConfig),
     Some (TomlTypeMismatch "debug_trace" "boolean"))
  /\ readLeaf IKS_Enabled (fst (unifyConfig traceMistyped initialConfig))
     = VBool true
  /\ In (Logged ErrorLevel "Failed to parse config file"
                (ZapError (TomlTypeMismatch "debug_trace" "boolean")))
        (snd (ReadConfig ParseInt (oneFile "libconfig.toml" traceMistyped)
                         emptyEnv "libconfig.toml"))
  /\ snd (fst (ReadConfig ParseInt (oneFile "libconfig.toml" traceMistyped)
                          emptyEnv "libconfig.toml"))
     <> Some (TomlTypeMismatch "debug_trace" "boolean")
  /\ fst (ReadConfig ParseInt (oneFile "libconfig.toml" traceMistyped)
                     emptyEnv "libconfig.toml")
     = (Some (fst (Process ParseInt emptyEnv
                     (fst (unifyConfig traceMistyped initialConfig)))),
        snd (Process ParseInt emptyEnv
               (fst (unifyConfig traceMistyped initialConfig)))).
Proof.
  split; [vm_compute; reflexivity|].
  split; [vm_compute; reflexivity|].
  apply (decode_failure_logged_not_returned ParseInt
           (oneFile "libconfig.toml" traceMistyped) emptyEnv "libconfig.toml"
           (fst (unifyConfig traceMistyped initialConfig))
           (TomlTypeMismatch "debug_trace" "boolean")).
  vm_compute; reflexivity.
Defined.

Lemma overlay_error_names_bool_or_int_witness :
  snd (fst (ReadConfig ParseInt (oneFile "libconfig.toml" vpcFile)
                       envGenerationBad "libconfig.toml"))
  = Some (EnvParseError "VPC_VPC_API_GENERATION" "VPCAPIGeneration"
                        "int" "notanumber")
  /\ exists info value,
      In info gatherInfo
      /\ lookupVar envGenerationBad info = Some value
      /\ EnvParseError "VPC_VPC_API_GENERATION" "VPCAPIGeneration"
                       "int" "notanumber"
         = EnvParseError (viKey info) (viName info)
                         (typeName (leafKind (viField info))) value
      /\ leafKind (viField info) <> KString
      /\ forall s, processField ParseInt s KString = Some (VString s).
Proof.
  split; [vm_compute; reflexivity|].
  apply (overlay_error_names_bool_or_int ParseInt
           (oneFile "libconfig.toml" vpcFile) envGenerationBad
           "libconfig.toml").
  vm_compute; reflexivity.
Defined.

Lemma overlay_stops_at_first_failure_witness :
  gatherInfo = firstn 37 gatherInfo ++ infoGeneration :: skipn 38 gatherInfo
  /\ (forall i, In i (firstn 37 gatherInfo) ->
                convertible ParseInt envMixed i)
  /\ lookupVar envMixed infoGeneration = Some "notanumber"
  /\ processField ParseInt "notanumber" (leafKind (viField infoGeneration))
     = None
  /\ lookupVar envMixed (mkVarInfo "Enabled" "IKS_IKS_ENABLED" "IKS_ENABLED"
                                   (SubIKS, 0))
     = Some "true"
  /\ exists conf,
      fst (ReadConfig ParseInt (oneFile "libconfig.toml" vpcFile) envMixed
                      "libconfig.toml")
      = (Some conf,
         Some (EnvParseError (viKey infoGeneration) (viName infoGeneration)
                 (typeName (leafKind (viField infoGeneration)))
                 "notanumber"))
      /\ (forall i, In i (infoGeneration :: skipn 38 gatherInfo) ->
                    readLeaf (viField i) conf
                    = readLeaf (viField i)
                        (fst (DecodeFile (oneFile "libconfig.toml" vpcFile)
                                (effectivePath envMixed "libconfig.toml")
                                initialConfig)))
      /\ (forall i s, In i (firstn 37 gatherInfo) ->
                      lookupVar envMixed i = Some s ->
                      processField ParseInt s (leafKind (viField i))
                      = Some (readLeaf (viField i) conf)).
Proof.
  assert (forall i, In i (firstn 37 gatherInfo) ->
                    convertible ParseInt envMixed i) as Hpre.
  { intros i Hi. vm_compute in Hi.
    repeat (destruct Hi as [<-|Hi];
            [vm_compute; try exact I; discriminate|]).
    destruct Hi. }
  split; [vm_compute; reflexivity|]. split; [exact Hpre|].
  split; [vm_compute; reflexivity|]. split; [vm_compute; reflexivity|].
  split; [vm_compute; reflexivity|].
  apply (overlay_stops_at_first_failure ParseInt
           (oneFile "libconfig.toml" vpcFile) envMixed "libconfig.toml"
           (firstn 37 gatherInfo) (skipn 38 gatherInfo) infoGeneration
           "notanumber");
    [vm_compute; reflexivity | exact Hpre
     | vm_compute; reflexivity | vm_compute; reflexivity].
Defined.

Lemma variable_sets_its_field_witness :
  In infoDebugTrace gatherInfo
  /\ In "DEBUG_TRACE" (consultedNames infoDebugTrace)
  /\ (forall i, In i gatherInfo -> lookupVar emptyEnv i = None)
  /\ processField ParseInt "true" (leafKind (viField infoDebugTrace))
     = Some (VBool true)
  /\ exists conf,
      fst (ReadConfig ParseInt (oneFile "libconfig.toml" traceOff)
                      (setenv "DEBUG_TRACE" "true" emptyEnv) "libconfig.toml")
      = (Some conf, None)
      /\ readLeaf (viField infoDebugTrace) conf = VBool true
      /\ forall l,
          l <> viField infoDebugTrace ->
          readLeaf l conf
          = readLeaf l
              (fst (DecodeFile (oneFile "libconfig.toml" traceOff)
                      (effectivePath (setenv "DEBUG_TRACE" "true" emptyEnv)
                                     "libconfig.toml")
                      initialConfig)).
Proof.
  assert (forall i, In i gatherInfo -> lookupVar emptyEnv i = None) as Hun.
  { intros i _. unfold lookupVar, emptyEnv.
    destruct (negb (String.eqb (viAlt i) "")); reflexivity. }
  assert (In infoDebugTrace gatherInfo) as Hin by (left; reflexivity).
  assert (In "DEBUG_TRACE" (consultedNames infoDebugTrace)) as Hname
    by (right; left; reflexivity).
  split; [exact Hin|]. split; [exact Hname|]. split; [exact Hun|].
  split; [reflexivity|].
  apply (variable_sets_its_field ParseInt
           (oneFile "libconfig.toml" traceOff) emptyEnv "libconfig.toml"
           infoDebugTrace "DEBUG_TRACE" "true" (VBool true));
    [exact Hin | exact Hname | exact Hun | reflexivity].
Defined.

Lemma loader_reads_consulted_variables_only_witness :
  envWithHome "GOPATH" = envTraceOn "GOPATH"
  /\ envWithHome "HOME" <> envTraceOn "HOME"
  /\ (forall i name, In i gatherInfo -> In name (consultedNames i) ->
                     envWithHome name = envTraceOn name)
  /\ ReadConfig ParseInt (oneFile "libconfig.toml" traceOff) envWithHome
                "libconfig.toml"
     = ReadConfig ParseInt (oneFile "libconfig.toml" traceOff) envTraceOn
                  "libconfig.toml".
Proof.
  assert (forall i name, In i gatherInfo -> In name (consultedNames i) ->
                         envWithHome name = envTraceOn name) as Hsame.
  { intros i name Hi Hname. unfold envWithHome, setenv at 1.
    destruct (String.eqb name "HOME") eqn:E; [|reflexivity].
    apply String.eqb_eq in E. subst name. exfalso.
    assert (existsb (String.eqb "HOME") (flat_map consultedNames gatherInfo)
            = false) as Hno by (vm_compute; reflexivity).
    assert (existsb (String.eqb "HOME") (flat_map consultedNames gatherInfo)
            = true) as Hyes.
    { apply existsb_exists. exists "HOME". split; [|reflexivity].
      apply in_flat_map. now exists i. }
    congruence. }
  split; [reflexivity|]. split; [vm_compute; discriminate|].
  split; [exact Hsame|].
  apply (loader_reads_consulted_variables_only ParseInt
           (oneFile "libconfig.toml" traceOff) envWithHome envTraceOn
           "libconfig.toml"); [reflexivity | exact Hsame].
Defined.

Lemma file_key_sets_its_field_witness :
  nth_error (subType SubVPC) 11 = Some fieldGeneration
  /\ Strings.EqualFold "vpc" (subName SubVPC) = true
  /\ unifyLeaf (FieldKind fieldGeneration) (TInteger 2) = Some (VInt 2)
  /\ oneFile "libconfig.toml" generationOnly "libconfig.toml"
     = Toml [("vpc", Table [(tomlName fieldGeneration, TInteger 2)])]
  /\ exists conf,
      DecodeFile (oneFile "libconfig.toml" generationOnly) "libconfig.toml"
                 initialConfig
      = (conf, None)
      /\ readLeaf (SubVPC, 11) conf = VInt 2
      /\ forall l,
          l <> (SubVPC, 11) -> readLeaf l conf = zeroValue (leafKind l).
Proof.
  split; [reflexivity|]. split; [reflexivity|]. split; [reflexivity|].
  split; [reflexivity|].
  apply (file_key_sets_its_field (oneFile "libconfig.toml" generationOnly)
           "libconfig.toml" "vpc" SubVPC 11 fieldGeneration (TInteger 2)
           (VInt 2)); reflexivity.
Defined.

End MoreRuns.
